(** * avicore: a shallow embedding of [app.py]

    The tool is a command-line batch driver around an external encoder
    binary.  The embedding below follows the Python source function by
    function:

    - paths are [pathlib] paths, kept as their list of parts;
    - the file system is a finite map from paths to entry kinds;
    - the process state (file system, [CREATED_FILES], terminal output and
      log records) is threaded explicitly through a small state-and-exception
      monad;
    - the external binary ([subprocess.run]) and wildcard expansion
      ([glob.glob]) are parameters of the development. *)

From stdpp Require Import gmap strings list pretty.
From Stdlib Require Import ZArith Lia Ascii.

Local Open Scope Z_scope.

(* ================================================================== *)
(** * Strings *)
(* ================================================================== *)

Module Str.

(** [str.lower()], on the ASCII letters. *)
Definition lower_ascii (c : Ascii.ascii) : Ascii.ascii :=
  let n := Ascii.nat_of_ascii c in
  if ((65 <=? n) && (n <=? 90))%nat then Ascii.ascii_of_nat (n + 32) else c.

Fixpoint lower (s : string) : string :=
  match s with
  | EmptyString => EmptyString
  | String c s' => String (lower_ascii c) (lower s')
  end.

(** [sep.join(l)] *)
Fixpoint join (sep : string) (l : list string) : string :=
  match l with
  | [] => ""
  | [x] => x
  | x :: l' => x +:+ sep +:+ join sep l'
  end.

(** Position of the last dot: the string is cut into what precedes the
    last ["."] and what starts at it ([name.rfind('.')]). *)
Fixpoint rsplit_dot (s : string) : option (string * string) :=
  match s with
  | EmptyString => None
  | String c s' =>
      match rsplit_dot s' with
      | Some (a, b) => Some (String c a, b)
      | None => if Ascii.eqb c "."%char then Some ("", s) else None
      end
  end.

(** [split_on c s cur]: the pieces of [s] between occurrences of [c];
    [cur] is the piece being read. *)
Fixpoint split_on (c : Ascii.ascii) (s : string) (cur : string)
  : list string :=
  match s with
  | EmptyString => [cur]
  | String d s' =>
      if Ascii.eqb d c then cur :: split_on c s' ""
      else split_on c s' (cur +:+ String d "")
  end.

(** [c in s] *)
Fixpoint contains (c : Ascii.ascii) (s : string) : bool :=
  match s with
  | EmptyString => false
  | String d s' => Ascii.eqb d c || contains c s'
  end.

End Str.

(* ================================================================== *)
(** * Paths ([pathlib.Path], POSIX flavour) *)
(* ================================================================== *)

(** A path is the list of its parts ([PurePath.parts]): [Path("a/b.txt")] is
    [["a"; "b.txt"]], [Path(".")] is [[]], and an absolute path starts with
    the anchor ["/"]. *)
Abbreviation Path := (list string).

Module PathLib.

(** [s] starts with the separator: the path is absolute. *)
Definition is_absolute (s : string) : bool :=
  match s with
  | String c _ => Ascii.eqb c "/"%char
  | EmptyString => false
  end.

(** [Path(s)]: split on the separator, drop empty and ["."] components;
    an absolute path keeps its anchor.  (A text that starts with exactly two
    separators, whose anchor pathlib keeps apart, is read as one that
    starts with a single one.) *)
Definition of_str (s : string) : Path :=
  let comps :=
    filter (λ c, c ≠ "" ∧ c ≠ ".") (Str.split_on "/"%char s "") in
  if is_absolute s then "/" :: comps else comps.

(** [str(p)] *)
Definition str (p : Path) : string :=
  match p with
  | [] => "."
  | x :: l =>
      if bool_decide (x = "/") then "/" +:+ Str.join "/" l
      else Str.join "/" p
  end.

(** [p.name]: the last part, empty for [Path(".")] and for the root. *)
Definition name (p : Path) : string :=
  if bool_decide (p = ["/"]) then "" else default "" (last p).

(** [p.parent] *)
Definition parent (p : Path) : Path :=
  if bool_decide (p = ["/"]) then p else removelast p.

(** [p / s] for a single component [s]; joining the empty string gives
    [p] back. *)
Definition join (p : Path) (s : string) : Path :=
  if bool_decide (s = "") then p else p ++ [s].

(** [p.suffix]: [name[i:]] when [0 < i < len(name) - 1] for the index [i]
    of the last dot, else the empty string. *)
Definition suffix (p : Path) : string :=
  match Str.rsplit_dot (name p) with
  | Some (a, b) =>
      if bool_decide (a ≠ "" ∧ (2 ≤ String.length b)%nat) then b else ""
  | None => ""
  end.

(** [p.stem]: [name[:i]] under the same condition, else the whole name. *)
Definition stem (p : Path) : string :=
  match Str.rsplit_dot (name p) with
  | Some (a, b) =>
      if bool_decide (a ≠ "" ∧ (2 ≤ String.length b)%nat) then a
      else name p
  | None => name p
  end.

End PathLib.

(* ================================================================== *)
(** * Exceptions, file system, process state *)
(* ================================================================== *)

(** The exception classes that occur; all of them derive from
    [Exception]. *)
Inductive exn_class :=
  | ClickException | ValueError | FileExistsError | FileNotFoundError
  | NotADirectoryError | OSError.

(** An exception with its message ([str(exc)]).  For the exceptions of
    click and of the program the message is the text the program gives; for
    those of the operating system it is the error text alone, without the
    error number and the path that [str(exc)] puts around it. *)
Record exn := Exn { exn_cls : exn_class; exn_msg : string }.

Inductive result (A : Type) :=
  | Ok (a : A)
  | Raise (e : exn).
Arguments Ok {A} a.
Arguments Raise {A} e.

(** Entries of the file system. *)
Inductive node := File | Dir.

Abbreviation FS := (gmap Path node).

Inductive log_level := DEBUG | ERROR.

(** A record handed to [logging]; [log_exc] is the exception attached by
    [logging.exception]. *)
Record log_record :=
  LogRecord { log_lvl : log_level; log_msg : string; log_exc : option exn }.

(** What the program reads and writes: the file system, the global
    [CREATED_FILES], the lines written to the terminal by [click.secho] and
    the records given to [logging] (most recent last). *)
Record State := mkState {
  fs : FS;
  CREATED_FILES : list Path;
  terminal : list string;
  log : list log_record;
}.

(** [subprocess.CompletedProcess], the fields that are read. *)
Record CompletedProcess := { returncode : Z; stderr : string }.

(** [ctx.obj] *)
Record Ctx := { ffmpeg : Path; verbose : bool; dry_run : bool }.

(** ** The monad: state, and exceptions that keep the state reached *)

Definition M (A : Type) : Type := State → result A * State.

Global Instance M_ret : MRet M := λ A a st, (Ok a, st).

Definition bind {A B} (m : M A) (k : A → M B) : M B :=
  λ st, match m st with
        | (Ok a, st') => k a st'
        | (Raise e, st') => (Raise e, st')
        end.

Global Instance M_bind : MBind M := λ A B k m, bind m k.

(** [let* x := m in k] runs [m] and, unless it raised, [k] on its value;
    [m ;; k] is the same with the value dropped. *)
Notation "'let*' x := m 'in' k" := (bind m (λ x, k))
  (at level 10, x pattern, m at level 100, k at level 200).

Definition raise {A} (e : exn) : M A := λ st, (Raise e, st).

(** [try: body / except Exception as e: handler e] *)
Definition try_except {A} (body : M A) (handler : exn → M A) : M A :=
  λ st, match body st with
        | (Ok a, st') => (Ok a, st')
        | (Raise e, st') => handler e st'
        end.

Definition get_fs : M FS := λ st, (Ok (fs st), st).

(** [click.secho(line, ...)] *)
Definition secho (line : string) : M unit :=
  λ st, (Ok tt, mkState (fs st) (CREATED_FILES st)
                        (terminal st ++ [line]) (log st)).

Definition logging (r : log_record) : M unit :=
  λ st, (Ok tt, mkState (fs st) (CREATED_FILES st)
                        (terminal st) (log st ++ [r])).

Definition logging_debug (msg : string) : M unit :=
  logging (LogRecord DEBUG msg None).
Definition logging_error (msg : string) : M unit :=
  logging (LogRecord ERROR msg None).
Definition logging_exception (msg : string) (e : exn) : M unit :=
  logging (LogRecord ERROR msg (Some e)).

(** [CREATED_FILES.append(dst)] *)
Definition created_append (dst : Path) : M unit :=
  λ st, (Ok tt, mkState (fs st) (CREATED_FILES st ++ [dst])
                        (terminal st) (log st)).

(** [for x in xs: acc = body x acc], the accumulator being the local
    variables the loop body updates. *)
Fixpoint for_each {A B} (xs : list A) (body : A → B → M B) (acc : B) : M B :=
  match xs with
  | [] => mret acc
  | x :: xs' => let* acc' := body x acc in for_each xs' body acc'
  end.

(* ================================================================== *)
(** * File-system operations used by the tool *)
(* ================================================================== *)

(** Failures that depend on what the state does not record (permissions,
    devices, a full disk) are not produced by this model of the operating
    system; the failures below are those the entries themselves decide.  In
    particular [rename] succeeds here whenever its source exists and the
    parent of its target is a directory, where the operating system can
    still refuse the move (no permission, another device, a directory moved
    below itself). *)
Module OS.

(** [p.exists()] *)
Definition exists_ (fs : FS) (p : Path) : bool :=
  bool_decide (is_Some (fs !! p)).

Definition path_exists (p : Path) : M bool :=
  λ st, (Ok (exists_ (fs st) p), st).

Definition set_fs (fs' : FS) : M unit :=
  λ st, (Ok tt, mkState fs' (CREATED_FILES st) (terminal st) (log st)).

(** [p.mkdir(exist_ok=True)] *)
Definition mkdir_exist_ok (p : Path) : M unit :=
  let* fs := get_fs in
  match fs !! p with
  | Some Dir => mret tt
  | Some File => raise (Exn FileExistsError "File exists")
  | None =>
      match fs !! PathLib.parent p with
      | Some Dir => set_fs (<[p := Dir]> fs)
      | Some File => raise (Exn NotADirectoryError "Not a directory")
      | None => raise (Exn FileNotFoundError "No such file or directory")
      end
  end.

(** The entries at or below [src] move to the same place at or below
    [dst]. *)
Definition rebase (src dst p : Path) : Path :=
  dst ++ drop (length src) p.

Definition relocate (src dst : Path) (fs : FS) : FS :=
  let moved := filter (λ kv, src `prefix_of` kv.1) fs in
  let kept := filter (λ kv, ¬ src `prefix_of` kv.1) fs in
  list_to_map (prod_map (rebase src dst) id <$> map_to_list moved) ∪ kept.

(** [src.rename(dst)] *)
Definition rename (src dst : Path) : M unit :=
  let* fs := get_fs in
  match fs !! src with
  | None => raise (Exn FileNotFoundError "No such file or directory")
  | Some _ =>
      match fs !! PathLib.parent dst with
      | Some Dir => set_fs (relocate src dst fs)
      | Some File => raise (Exn NotADirectoryError "Not a directory")
      | None => raise (Exn FileNotFoundError "No such file or directory")
      end
  end.

End OS.

(** [p.with_name(n)], for a valid name [n]: a path without a name has
    none to replace. *)
Definition with_name (p : Path) (n : string) : M Path :=
  if bool_decide (PathLib.name p = "")
  then raise (Exn ValueError "has an empty name")
  else mret (PathLib.join (PathLib.parent p) n).

(** [p.with_suffix(suf)] *)
Definition with_suffix (p : Path) (suf : string) : M Path :=
  if bool_decide (PathLib.name p = "")
  then raise (Exn ValueError "has an empty name")
  else mret (PathLib.join (PathLib.parent p) (PathLib.stem p +:+ suf)).

(* ================================================================== *)
(** * Naming and backup *)
(* ================================================================== *)

Definition IMAGE_FORMATS : list string := ["jpg"; "jpeg"; "png"; "webp"; "bmp"].
Definition VIDEO_FORMATS : list string := ["mp4"; "mkv"; "mov"; "avi"; "webm"].
Definition AUDIO_FORMATS : list string := ["mp3"; "wav"; "aac"; "flac"; "ogg"].

(** [parent / f"{base}_{idx}{suffix}"] *)
Definition numbered (parent : Path) (base suffix : string) (idx : nat) : Path :=
  PathLib.join parent (base +:+ "_" +:+ pretty idx +:+ suffix).

(** The [while True] loop of [suggest_path].  The source loop has no bound;
    here the number of iterations is bounded by [fuel], and once it is used
    up the candidate is returned without being tested.  With as much fuel as
    the file system has entries that last candidate cannot exist
    ([suggest_path_loop_spec] below), so the bound is never felt. *)
Fixpoint suggest_path_loop (fs : FS) (parent : Path) (base suffix : string)
    (fuel idx : nat) : Path :=
  let candidate := numbered parent base suffix idx in
  match fuel with
  | O => candidate
  | S fuel' =>
      if negb (OS.exists_ fs candidate) then candidate
      else suggest_path_loop fs parent base suffix fuel' (S idx)
  end.

Definition suggest_path (fs : FS) (path : Path) : Path :=
  let base := PathLib.stem path in
  let suffix := PathLib.suffix path in
  let parent := PathLib.parent path in
  suggest_path_loop fs parent base suffix (size fs) 1.

(** The [while target.exists()] loop of [backup_original], bounded in the
    same way. *)
Fixpoint backup_target_loop (fs : FS) (backup_dir : Path)
    (base suffix : string) (fuel counter : nat) (target : Path) : Path :=
  match fuel with
  | O => target
  | S fuel' =>
      if OS.exists_ fs target
      then backup_target_loop fs backup_dir base suffix fuel' (S counter)
             (numbered backup_dir base suffix counter)
      else target
  end.

Definition backup_original (src : Path) : M Path :=
  let backup_dir := PathLib.join (PathLib.parent src) "backup" in
  OS.mkdir_exist_ok backup_dir ;;
  let* fs := get_fs in
  let target := PathLib.join backup_dir (PathLib.name src) in
  let target :=
    backup_target_loop fs backup_dir (PathLib.stem src) (PathLib.suffix src)
      (size fs) 1 target in
  OS.rename src target ;;
  mret target.

(* ================================================================== *)
(** * Quality mapping of [image compress] *)
(* ================================================================== *)

(** [q = max(2, min(31, int((100 - quality) / 3)))].  [quality] is an [int]
    (a click option with an integer default).  [/] is true division and
    [int()] truncates toward zero: for the integers a double holds exactly,
    the quotient by 3 is either an integer or at least a third away from
    one, so the truncated float is the truncated quotient [Z.quot].  Where
    [100 - quality] is beyond the range of a double the division raises
    [OverflowError] instead, which this function does not show: it is the
    mapping for the qualities the option is meant for, 0 to 100. *)
Definition encoder_quality (quality : Z) : Z :=
  Z.max 2 (Z.min 31 (Z.quot (100 - quality) 3)).

(** The mapping as the specification words it: the quotient is rounded to the
    nearest integer before clamping. *)
Module QualitySpec.

Definition clamp (lo hi x : Z) : Z := Z.max lo (Z.min hi x).

(** Nearest integer to [x / 3] (a third is never half-way between two
    integers, so there is no tie to break). *)
Definition round_third (x : Z) : Z := (2 * x + 3) `div` 6.

Definition encoder_quality_rounded (quality : Z) : Z :=
  clamp 2 31 (round_third (100 - quality)).

End QualitySpec.

(* ================================================================== *)
(** * The program *)
(* ================================================================== *)

Section Program.

(** [subprocess.run(cmd, ...)]: what the started process does to the file
    system and how it ends, or the exception raised when it cannot be
    started.  The encoder binary is outside the repository. *)
Variable subprocess_run : FS → list string → result CompletedProcess * FS.

(** [glob.glob(pattern)] on the current file system. *)
Variable glob : FS → string → list string.

Definition subprocess_run_M (cmd : list string) : M CompletedProcess :=
  λ st, let '(r, fs') := subprocess_run (fs st) cmd in
        (r, mkState fs' (CREATED_FILES st) (terminal st) (log st)).

(** ** Subprocess wrapper *)

Definition run_ffmpeg (cmd : list string) (dry_run : bool) : M bool :=
  logging_debug ("FFmpeg cmd: " +:+ Str.join " " cmd) ;;
  if dry_run then
    secho ("[DRY-RUN] " +:+ Str.join " " cmd) ;;
    mret true
  else
    try_except
      (let* result := subprocess_run_M cmd in
       if bool_decide (returncode result ≠ 0) then
         logging_error (stderr result) ;;
         secho "FFmpeg failed. See avicore.log for details." ;;
         mret false
       else mret true)
      (λ exc,
         logging_exception "Execution failure" exc ;;
         secho ("Execution error: " +:+ exn_msg exc) ;;
         mret false).

(** ** Input expansion *)

(** [dict.fromkeys(keys)] as the list of its keys: a dictionary keeps the
    position at which a key was first inserted. *)
Definition dict_fromkeys (keys : list Path) : list Path :=
  foldl (λ d k, if bool_decide (k ∈ d) then d else d ++ [k]) [] keys.

(** The body of the loop of [expand_inputs]: what [item] adds to
    [results]. *)
Definition expand_item (fs : FS) (item : string) : list string :=
  let matches := glob fs item in
  if bool_decide (matches ≠ []) then matches
  else
    let p := PathLib.of_str item in
    if OS.exists_ fs p then [PathLib.str p] else [].

Definition expand_results (fs : FS) (inputs : list string) : list string :=
  foldl (λ results item, results ++ expand_item fs item) [] inputs.

Definition expand_inputs (fs : FS) (inputs : list string) : list Path :=
  dict_fromkeys (PathLib.of_str <$> expand_results fs inputs).

Definition expand_inputs_M (inputs : list string) : M (list Path) :=
  let* fs := get_fs in mret (expand_inputs fs inputs).

(** [f"Completed → Success: {ok} | Failed: {fail}"] *)
Definition completed_line (ok fail : nat) : string :=
  "Completed → Success: " +:+ pretty ok +:+ " | Failed: " +:+ pretty fail.

(** ** Video *)
Definition video_convert_cmd (ffmpeg : Path) (fast : bool) (src dst : Path)
  : list string :=
  if fast then
    [PathLib.str ffmpeg; "-i"; PathLib.str src; "-map"; "0";
     "-c"; "copy"; PathLib.str dst]
  else
    [PathLib.str ffmpeg; "-i"; PathLib.str src;
     "-map"; "0";
     "-c:v"; "libx264";
     "-c:a"; "aac";
     "-movflags"; "+faststart";
     PathLib.str dst].

(** One iteration of the loop of [video convert]. *)
Definition video_convert_file (ctx : Ctx) (format : string) (fast force : bool)
    (src : Path) (tally : nat * nat) : M (nat * nat) :=
  let '(ok, fail) := tally in
  let* dst := with_name src (PathLib.stem src +:+ "." +:+ format) in
  let* present := OS.path_exists dst in
  if present && negb force then
    secho ("Skipping existing file: " +:+ PathLib.name dst) ;;
    mret (ok, S fail)
  else
    let cmd := video_convert_cmd (ffmpeg ctx) fast src dst in
    let* success := run_ffmpeg cmd (dry_run ctx) in
    if success then
      backup_original src ;;
      created_append dst ;;
      mret (S ok, fail)
    else mret (ok, S fail).

Definition video_convert (ctx : Ctx) (input : list string) (format : string)
    (fast force : bool) : M unit :=
  if bool_decide (Str.lower format ∉ VIDEO_FORMATS) then
    raise (Exn ClickException "Unsupported video format")
  else
    let* files := expand_inputs_M input in
    if bool_decide (files = []) then
      raise (Exn ClickException "No input files resolved")
    else
      let* (ok, fail) :=
        for_each files (video_convert_file ctx format fast force)
          (0%nat, 0%nat) in
      secho (completed_line ok fail).

Definition video_mute_cmd (ffmpeg : Path) (src dst : Path) : list string :=
  [PathLib.str ffmpeg; "-i"; PathLib.str src;
   "-map"; "0";
   "-an";
   "-c:v"; "copy";
   "-c:s"; "copy";
   PathLib.str dst].

(** One iteration of the loop of [video mute]. *)
Definition video_mute_file (ctx : Ctx) (force : bool)
    (src : Path) (tally : nat * nat) : M (nat * nat) :=
  let '(ok, fail) := tally in
  let dst := src in
  let* present := OS.path_exists dst in
  if present && negb force then
    secho ("Skipping existing file: " +:+ PathLib.name dst) ;;
    mret (ok, S fail)
  else
    let cmd := video_mute_cmd (ffmpeg ctx) src dst in
    let* success := run_ffmpeg cmd (dry_run ctx) in
    if success then
      backup_original src ;;
      created_append dst ;;
      mret (S ok, fail)
    else mret (ok, S fail).

Definition video_mute (ctx : Ctx) (input : list string) (force : bool)
  : M unit :=
  let* files := expand_inputs_M input in
  if bool_decide (files = []) then
    raise (Exn ClickException "No input files resolved")
  else
    let* (ok, fail) :=
      for_each files (video_mute_file ctx force) (0%nat, 0%nat) in
    secho (completed_line ok fail).

(** ** Image *)

Definition image_convert_cmd (ffmpeg : Path) (src dst : Path)
  : list string :=
  [PathLib.str ffmpeg; "-i"; PathLib.str src; PathLib.str dst].

(** One iteration of the loop of [image convert]. *)
Definition image_convert_file (ctx : Ctx) (format : string) (force : bool)
    (src : Path) (tally : nat * nat) : M (nat * nat) :=
  let '(ok, fail) := tally in
  let* dst := with_name src (PathLib.stem src +:+ "." +:+ format) in
  let* fs := get_fs in
  let dst :=
    if OS.exists_ fs dst && negb force then suggest_path fs dst else dst in
  let cmd := image_convert_cmd (ffmpeg ctx) src dst in
  let* success := run_ffmpeg cmd (dry_run ctx) in
  if success then
    backup_original src ;;
    created_append dst ;;
    mret (S ok, fail)
  else mret (ok, S fail).

Definition image_convert (ctx : Ctx) (pattern : list string)
    (format : string) (force : bool) : M unit :=
  if bool_decide (Str.lower format ∉ IMAGE_FORMATS) then
    raise (Exn ClickException "Unsupported image format")
  else
    let* files := expand_inputs_M pattern in
    if bool_decide (files = []) then
      raise (Exn ClickException "No input files resolved")
    else
      let* (ok, fail) :=
        for_each files (image_convert_file ctx format force)
          (0%nat, 0%nat) in
      secho (completed_line ok fail).

Definition image_compress_cmd (ffmpeg : Path) (quality : Z)
    (src dst : Path) : list string :=
  let ext := Str.lower (PathLib.suffix src) in
  if bool_decide (ext = ".png") then
    [PathLib.str ffmpeg; "-i"; PathLib.str src;
     "-compression_level"; "9";
     PathLib.str dst]
  else
    let q := encoder_quality quality in
    [PathLib.str ffmpeg; "-i"; PathLib.str src;
     "-q:v"; pretty q;
     PathLib.str dst].

(** One iteration of the loop of [image compress]; the whole body is
    inside [try ... except Exception]. *)
Definition image_compress_file (ctx : Ctx) (quality : Z) (force : bool)
    (src : Path) (tally : nat * nat) : M (nat * nat) :=
  let '(ok, fail) := tally in
  try_except
    (let* fs := get_fs in
     let dst := src in
     let dst :=
       if OS.exists_ fs dst && negb force then suggest_path fs dst
       else dst in
     let cmd := image_compress_cmd (ffmpeg ctx) quality src dst in
     let* success := run_ffmpeg cmd (dry_run ctx) in
     if success then
       backup_original src ;;
       created_append dst ;;
       mret (S ok, fail)
     else mret (ok, S fail))
    (λ exc,
       logging_exception "Image compress failure" exc ;;
       mret (ok, S fail)).

(** [f"Batch Report → Success: {ok}, Failed: {fail}"] *)
Definition batch_report_line (ok fail : nat) : string :=
  "Batch Report → Success: " +:+ pretty ok +:+ ", Failed: " +:+ pretty fail.

Definition image_compress (ctx : Ctx) (pattern : list string)
    (quality : Z) (force : bool) : M unit :=
  let* files := expand_inputs_M pattern in
  if bool_decide (files = []) then
    raise (Exn ClickException "No input files resolved.")
  else
    let* (ok, fail) :=
      for_each files (image_compress_file ctx quality force)
        (0%nat, 0%nat) in
    secho (batch_report_line ok fail).

(** ** Audio *)

Definition audio_extract_cmd (ffmpeg : Path) (src dst : Path)
  : list string :=
  [PathLib.str ffmpeg; "-i"; PathLib.str src;
   "-vn"; "-ab"; "192k"; "-map"; "a";
   PathLib.str dst].

Definition audio_extract (ctx : Ctx) (input : string) (force : bool)
  : M unit :=
  let src := PathLib.of_str input in
  let* present := OS.path_exists src in
  if negb present then
    raise (Exn ClickException ("Input not found: " +:+ PathLib.str src))
  else
    let* dst := with_suffix src ".mp3" in
    let* fs := get_fs in
    let dst :=
      if OS.exists_ fs dst && negb force then suggest_path fs dst else dst in
    let cmd := audio_extract_cmd (ffmpeg ctx) src dst in
    let* success := run_ffmpeg cmd (dry_run ctx) in
    if success then
      backup_original src ;;
      created_append dst ;;
      secho ("Extracted → " +:+ PathLib.str dst)
    else mret tt.

Definition audio_convert_cmd (ffmpeg : Path) (src dst : Path)
  : list string :=
  [PathLib.str ffmpeg; "-i"; PathLib.str src; PathLib.str dst].

Definition audio_convert (ctx : Ctx) (input : string) (format : string)
    (force : bool) : M unit :=
  if bool_decide (Str.lower format ∉ AUDIO_FORMATS) then
    raise (Exn ClickException "Unsupported audio format")
  else
    let src := PathLib.of_str input in
    let* present := OS.path_exists src in
    if negb present then
      raise (Exn ClickException ("Input not found: " +:+ PathLib.str src))
    else
      let* dst := with_name src (PathLib.stem src +:+ "." +:+ format) in
      let* fs := get_fs in
      let dst :=
        if OS.exists_ fs dst && negb force then suggest_path fs dst
        else dst in
      let cmd := audio_convert_cmd (ffmpeg ctx) src dst in
      let* success := run_ffmpeg cmd (dry_run ctx) in
      if success then
        backup_original src ;;
        created_append dst ;;
        secho ("Converted → " +:+ PathLib.str dst)
      else mret tt.

End Program.

(* ================================================================== *)
(** * Concrete surroundings *)
(* ================================================================== *)

(** Encoders, a wildcard expansion and small file systems on which the
    program is run in the examples below. *)
Module Scenario.

Definition ffmpeg_bin : Path := ["bin"; "ffmpeg"].

Definition ctx_run : Ctx :=
  {| ffmpeg := ffmpeg_bin; verbose := false; dry_run := false |}.

Definition ctx_preview : Ctx :=
  {| ffmpeg := ffmpeg_bin; verbose := false; dry_run := true |}.

(** An encoder that writes its last argument and exits with status 0. *)
Definition encoder_ok (fs : FS) (cmd : list string)
  : result CompletedProcess * FS :=
  (Ok {| returncode := 0; stderr := "" |},
   match last cmd with
   | Some out => <[PathLib.of_str out := File]> fs
   | None => fs
   end).

(** An encoder that rejects every input: status 1, nothing written. *)
Definition encoder_fails (fs : FS) (cmd : list string)
  : result CompletedProcess * FS :=
  (Ok {| returncode := 1; stderr := "Invalid data found" |}, fs).

(** [glob.glob] on patterns without wildcard characters: the pattern
    itself when it names an existing entry. *)
Definition glob_literal (fs : FS) (pattern : string) : list string :=
  if OS.exists_ fs (PathLib.of_str pattern) then [pattern] else [].

Definition start (fs : FS) : State :=
  {| fs := fs; CREATED_FILES := []; terminal := []; log := [] |}.

(** A working directory holding one picture. *)
Definition one_picture : FS :=
  {[ [] := Dir; ["a.png"] := File ]}.

(** Two clips next to a regular file that is called [backup]. *)
Definition backup_is_a_file : FS :=
  {[ [] := Dir; ["a.mov"] := File; ["b.mov"] := File; ["backup"] := File ]}.

(** One clip. *)
Definition one_clip : FS :=
  {[ [] := Dir; ["movie.mp4"] := File ]}.

(** A clip whose sound track was extracted before. *)
Definition clip_and_track : FS :=
  {[ [] := Dir; ["clip.mov"] := File; ["clip.mp3"] := File ]}.

(** A clip that was converted to [mp4] and to [mp3] before. *)
Definition clip_converted_before : FS :=
  {[ [] := Dir; ["clip.mov"] := File; ["clip.mp4"] := File;
     ["clip.mp3"] := File ]}.

(** Three clips. *)
Definition three_clips : FS :=
  {[ [] := Dir; ["a.mp4"] := File; ["b.mp4"] := File; ["c.mp4"] := File ]}.

End Scenario.

(* ================================================================== *)
(** * Facts about strings and paths *)
(* ================================================================== *)

Module StrFacts.

Lemma app_cons (c : Ascii.ascii) (s t : string) :
  String c s +:+ t = String c (s +:+ t).
Proof. reflexivity. Qed.

Lemma length_app (s t : string) :
  String.length (s +:+ t) = (String.length s + String.length t)%nat.
Proof.
  induction s as [|c s IH]; [done|].
  rewrite app_cons. simpl. by rewrite IH.
Qed.

Lemma app_nil_r (s : string) : s +:+ "" = s.
Proof.
  induction s as [|c s IH]; [done|]. rewrite app_cons. by rewrite IH.
Qed.

(** A common tail cancels. *)
Lemma app_inv_tail (s t u : string) : s +:+ u = t +:+ u → s = t.
Proof.
  revert t. induction s as [|c s IH]; intros [|d t] H; [done| | |].
  - apply (f_equal String.length) in H.
    rewrite app_cons in H. simpl in H. rewrite !length_app in H.
    simpl in H. lia.
  - apply (f_equal String.length) in H.
    rewrite app_cons in H. simpl in H. rewrite !length_app in H.
    simpl in H. lia.
  - rewrite !app_cons in H. injection H as -> H. f_equal. by apply IH.
Qed.

Lemma rsplit_dot_app (s a b : string) :
  Str.rsplit_dot s = Some (a, b) → a +:+ b = s.
Proof.
  revert a b. induction s as [|c s IH]; intros a b H; simpl in H; [done|].
  destruct (Str.rsplit_dot s) as [[a' b']|].
  - injection H as <- <-. rewrite app_cons. f_equal. by apply IH.
  - destruct (Ascii.eqb c "."); [|done]. by injection H as <- <-.
Qed.

End StrFacts.

Module PathFacts.

Import PathLib.

(** The name is the stem followed by the suffix. *)
Lemma stem_suffix (p : Path) : stem p +:+ suffix p = name p.
Proof.
  unfold stem, suffix.
  destruct (Str.rsplit_dot (name p)) as [[a b]|] eqn:E.
  - case_bool_decide.
    + by apply StrFacts.rsplit_dot_app.
    + apply StrFacts.app_nil_r.
  - apply StrFacts.app_nil_r.
Qed.

Lemma removelast_last (p : Path) :
  p ≠ [] → p = removelast p ++ [default "" (last p)].
Proof.
  induction p as [|x p IH]; [done|]. intros _.
  destruct p as [|y p]; [done|].
  change (removelast (x :: y :: p)) with (x :: removelast (y :: p)).
  change (last (x :: y :: p)) with (last (y :: p)).
  simpl. f_equal. by apply IH.
Qed.

(** A path that has a name is its parent followed by that name. *)
Lemma parent_name (p : Path) :
  p ≠ [] → p ≠ ["/"] → p = parent p ++ [name p].
Proof.
  intros Hnil Hroot. unfold parent, name.
  rewrite !bool_decide_false by done. by apply removelast_last.
Qed.

Lemma join_nonempty (p : Path) (s : string) : s ≠ "" → join p s = p ++ [s].
Proof. intros H. unfold join. by rewrite bool_decide_false. Qed.

End PathFacts.

(* ================================================================== *)
(** * Facts about the naming function *)
(* ================================================================== *)

Section Naming.

Implicit Types (fs : FS) (parent p : Path) (base suffix : string).

Lemma numbered_name_nonempty base suffix (idx : nat) :
  base +:+ "_" +:+ pretty idx +:+ suffix ≠ "".
Proof.
  intros H. apply (f_equal String.length) in H.
  rewrite !StrFacts.length_app in H. simpl in H. lia.
Qed.

Lemma numbered_eq parent base suffix (idx : nat) :
  numbered parent base suffix idx
  = parent ++ [base +:+ "_" +:+ pretty idx +:+ suffix].
Proof.
  unfold numbered. apply PathFacts.join_nonempty, numbered_name_nonempty.
Qed.

(** Two candidates with different counters are different paths. *)
Lemma numbered_inj parent base suffix : Inj (=) (=) (numbered parent base suffix).
Proof.
  intros i j H. rewrite !numbered_eq in H.
  apply app_inv_head in H. injection H as H.
  do 2 apply String.app_inj in H.
  apply StrFacts.app_inv_tail in H.
  by apply (inj pretty) in H.
Qed.

(** No candidate is the path the candidates are derived from. *)
Lemma numbered_ne_self p (idx : nat) :
  numbered (PathLib.parent p) (PathLib.stem p) (PathLib.suffix p) idx ≠ p.
Proof.
  rewrite numbered_eq. intros H.
  destruct (decide (p = [])) as [->|Hnil].
  { by destruct (PathLib.parent []). }
  destruct (decide (p = ["/"])) as [->|Hroot].
  { vm_compute in H. discriminate H. }
  rewrite (PathFacts.parent_name p Hnil Hroot) in H at 4.
  apply app_inv_head in H. injection H as H.
  rewrite <- PathFacts.stem_suffix in H.
  apply (f_equal String.length) in H.
  rewrite !StrFacts.length_app in H. simpl in H. lia.
Qed.

Lemma exists_dom fs p : OS.exists_ fs p = true → p ∈ dom fs.
Proof.
  unfold OS.exists_. intros H%bool_decide_eq_true. by apply elem_of_dom.
Qed.

(** The loop returns the first candidate, from [idx] on, that does not
    exist, as soon as the fuel covers the set [D] of candidates that
    exist. *)
Lemma suggest_path_loop_spec fs parent base suffix (fuel : nat) :
  ∀ (idx : nat) (D : gset Path),
    (∀ k : nat, (idx ≤ k)%nat →
       OS.exists_ fs (numbered parent base suffix k) = true →
       numbered parent base suffix k ∈ D) →
    (size D ≤ fuel)%nat →
    ∃ k : nat,
      (idx ≤ k)%nat
      ∧ suggest_path_loop fs parent base suffix fuel idx
        = numbered parent base suffix k
      ∧ OS.exists_ fs (numbered parent base suffix k) = false
      ∧ ∀ j : nat, (idx ≤ j < k)%nat →
          OS.exists_ fs (numbered parent base suffix j) = true.
Proof.
  induction fuel as [|fuel IH]; intros idx D HD Hsize.
  - exists idx. split; [lia|]. split; [done|]. split; [|lia].
    destruct (OS.exists_ fs (numbered parent base suffix idx)) eqn:E;
      [|done].
    apply HD in E; [|lia].
    assert (size D = 0)%nat as Hz%size_empty_inv by lia.
    set_solver.
  - simpl.
    destruct (OS.exists_ fs (numbered parent base suffix idx)) eqn:E; simpl.
    + destruct (IH (S idx) (D ∖ {[numbered parent base suffix idx]}))
        as (k & Hk & Hres & Hfree & Hbefore).
      * intros k Hk Hex. apply elem_of_difference. split; [apply HD; [lia|done]|].
        rewrite elem_of_singleton. intros Heq%numbered_inj. lia.
      * assert (numbered parent base suffix idx ∈ D) as Hin
          by (apply HD; [lia|done]).
        rewrite size_difference by set_solver.
        rewrite size_singleton.
        assert (size D ≠ 0)%nat; [|lia].
        intros Hz. apply size_empty_inv in Hz. set_solver.
      * exists k. split; [lia|]. split; [done|]. split; [done|].
        intros j Hj. destruct (decide (j = idx)) as [->|]; [done|].
        apply Hbefore. lia.
    + exists idx. split; [lia|]. split; [done|]. split; [done|]. lia.
Qed.

(** More fuel than that changes nothing. *)
Lemma suggest_path_loop_fuel fs parent base suffix (fuel : nat) (idx : nat) :
  (size fs ≤ fuel)%nat →
  suggest_path_loop fs parent base suffix fuel idx
  = suggest_path_loop fs parent base suffix (size fs) idx.
Proof.
  intros Hfuel.
  destruct (suggest_path_loop_spec fs parent base suffix fuel idx (dom fs))
    as (k & Hk & -> & Hfree & Hbefore).
  { intros ???. by apply exists_dom. }
  { by rewrite size_dom. }
  destruct (suggest_path_loop_spec fs parent base suffix (size fs) idx (dom fs))
    as (k' & Hk' & -> & Hfree' & Hbefore').
  { intros ???. by apply exists_dom. }
  { by rewrite size_dom. }
  f_equal. destruct (decide (k < k')%nat) as [Hlt|Hge].
  - rewrite Hbefore' in Hfree by lia. done.
  - destruct (decide (k' < k)%nat) as [Hlt|]; [|lia].
    rewrite Hbefore in Hfree' by lia. done.
Qed.

End Naming.

(* ================================================================== *)
(** * Facts about the backup target *)
(* ================================================================== *)

(** Once the plain name is taken, the loop of [backup_original] is the loop
    of [suggest_path] in the backup directory. *)
Lemma backup_target_loop_numbered (fs : FS) (dir : Path)
    (base suffix : string) (fuel c : nat) :
  backup_target_loop fs dir base suffix fuel (S c)
    (numbered dir base suffix c)
  = suggest_path_loop fs dir base suffix fuel c.
Proof.
  revert c. induction fuel as [|fuel IH]; intros c; simpl; [done|].
  destruct (OS.exists_ fs (numbered dir base suffix c)); simpl; [|done].
  apply IH.
Qed.

Lemma numbered_ne_plain (dir src : Path) (k : nat) :
  numbered dir (PathLib.stem src) (PathLib.suffix src) k
  ≠ PathLib.join dir (PathLib.name src).
Proof.
  rewrite numbered_eq. unfold PathLib.join. case_bool_decide as Hname.
  - intros H. apply (f_equal length) in H. rewrite length_app in H.
    simpl in H. lia.
  - intros H. apply app_inv_head in H. injection H as H.
    rewrite <- PathFacts.stem_suffix in H.
    apply (f_equal String.length) in H.
    rewrite !StrFacts.length_app in H. simpl in H. lia.
Qed.

(** The target [backup_original] renames the source to does not exist: the
    bound on the loop is never felt either. *)
Lemma backup_target_free (fs : FS) (src : Path) :
  OS.exists_ fs
    (backup_target_loop fs
       (PathLib.join (PathLib.parent src) "backup")
       (PathLib.stem src) (PathLib.suffix src) (size fs) 1
       (PathLib.join (PathLib.join (PathLib.parent src) "backup")
          (PathLib.name src)))
  = false.
Proof.
  set (dir := PathLib.join (PathLib.parent src) "backup").
  set (plain := PathLib.join dir (PathLib.name src)).
  destruct (OS.exists_ fs plain) eqn:Hplain.
  - assert (plain ∈ dom fs) as Hin by (by apply exists_dom).
    destruct (size fs) as [|n] eqn:Hsize.
    { apply map_size_empty_inv in Hsize. subst fs.
      apply elem_of_dom in Hin as [x Hx].
      by rewrite lookup_empty in Hx. }
    simpl. rewrite Hplain.
    rewrite (backup_target_loop_numbered fs dir _ _ n 1).
    destruct (suggest_path_loop_spec fs dir (PathLib.stem src)
                (PathLib.suffix src) n 1 (dom fs ∖ {[plain]}))
      as (k & _ & -> & Hfree & _); [| |done].
    + intros k _ Hex. apply elem_of_difference.
      split; [by apply exists_dom|].
      rewrite elem_of_singleton. apply numbered_ne_plain.
    + rewrite size_difference by set_solver.
      rewrite size_singleton, size_dom. lia.
  - destruct (size fs); simpl; [done|]. by rewrite Hplain.
Qed.

(* ================================================================== *)
(** * The quality mapping *)
(* ================================================================== *)

Lemma encoder_quality_floor (quality : Z) :
  quality ≤ 100 →
  encoder_quality quality = QualitySpec.clamp 2 31 ((100 - quality) `div` 3).
Proof.
  intros H. unfold encoder_quality, QualitySpec.clamp.
  rewrite Z.quot_div_nonneg by lia. done.
Qed.

Lemma round_third_nearest (x : Z) :
  Z.abs (3 * QualitySpec.round_third x - x) ≤ 1.
Proof.
  unfold QualitySpec.round_third.
  pose proof (Z.div_mod (2 * x + 3) 6 ltac:(lia)) as Hd.
  pose proof (Z.mod_pos_bound (2 * x + 3) 6 ltac:(lia)) as Hm.
  lia.
Qed.

Lemma image_compress_cmd_other (ff : Path) (quality : Z) (src dst : Path) :
  Str.lower (PathLib.suffix src) ≠ ".png" →
  image_compress_cmd ff quality src dst
  = [PathLib.str ff; "-i"; PathLib.str src;
     "-q:v"; pretty (encoder_quality quality); PathLib.str dst].
Proof. intros H. unfold image_compress_cmd. by rewrite bool_decide_false. Qed.

(** C1, as stated, fails: with rounding to the nearest integer the command
    for quality 8 would carry 31 (92/3 = 30.67), but [int()] truncates and
    the command carries 30. *)
Lemma C1_rounded_quality_refuted :
  ¬ (∀ (quality : Z) (ff src dst : Path),
       0 ≤ quality ≤ 100 →
       Str.lower (PathLib.suffix src) ≠ ".png" →
       image_compress_cmd ff quality src dst
       = [PathLib.str ff; "-i"; PathLib.str src; "-q:v";
          pretty (QualitySpec.encoder_quality_rounded quality);
          PathLib.str dst]).
Proof.
  intros H.
  specialize (H 8 ["ffmpeg"] ["photo.jpg"] ["photo_1.jpg"]).
  assert (0 ≤ 8 ≤ 100) as Hq by lia.
  assert (Str.lower (PathLib.suffix ["photo.jpg"]) ≠ ".png") as Hext
    by (vm_compute; discriminate).
  specialize (H Hq Hext). vm_compute in H. discriminate H.
Qed.

(** C1, amended: for every quality in [0, 100] and every source whose
    lower-cased suffix is not [.png], the argument after [-q:v] in the
    command of image compress is the decimal text of
    clamp(2, 31, floor((100 - quality)/3)) (the quotient is truncated, not
    rounded); for quality 70 it is ["10"]. *)
Theorem C1_encoder_quality_argument
    (quality : Z) (ff src dst : Path) :
  0 ≤ quality ≤ 100 →
  Str.lower (PathLib.suffix src) ≠ ".png" →
  image_compress_cmd ff quality src dst
  = [PathLib.str ff; "-i"; PathLib.str src; "-q:v";
     pretty (QualitySpec.clamp 2 31 ((100 - quality) `div` 3));
     PathLib.str dst]
  ∧ image_compress_cmd ff 70 src dst
    = [PathLib.str ff; "-i"; PathLib.str src; "-q:v"; "10";
       PathLib.str dst].
Proof.
  intros Hq Hext. rewrite !image_compress_cmd_other by done.
  rewrite encoder_quality_floor by lia. done.
Qed.

(** The scenario of the specification: [image compress photo.jpg --quality
    70]. *)
Lemma C1_encoder_quality_argument_witness :
  image_compress_cmd ["bin"; "ffmpeg"] 70 ["photo.jpg"] ["photo_1.jpg"]
  = ["bin/ffmpeg"; "-i"; "photo.jpg"; "-q:v"; "10"; "photo_1.jpg"].
Proof.
  refine (proj2 (C1_encoder_quality_argument 70 ["bin"; "ffmpeg"]
                   ["photo.jpg"] ["photo_1.jpg"] _ _)).
  - lia.
  - vm_compute. discriminate.
Defined.

(** C8: for every quality in [0, 100] the encoder quality lies in [2, 31],
    and a larger requested quality never gives a larger encoder quality. *)
Theorem C8_encoder_quality_range_monotone (q1 q2 : Z) :
  0 ≤ q1 ≤ 100 → 0 ≤ q2 ≤ 100 →
  2 ≤ encoder_quality q1 ≤ 31
  ∧ (q1 ≤ q2 → encoder_quality q2 ≤ encoder_quality q1).
Proof.
  intros H1 H2. unfold encoder_quality. split; [lia|].
  intros Hle.
  assert ((100 - q2) `quot` 3 ≤ (100 - q1) `quot` 3)
    by (apply Z.quot_le_mono; lia).
  lia.
Qed.

(** Qualities 40 and 70: encoder qualities 20 and 10. *)
Lemma C8_encoder_quality_range_monotone_witness :
  2 ≤ encoder_quality 40 ≤ 31
  ∧ (40 ≤ 70 → encoder_quality 70 ≤ encoder_quality 40).
Proof. apply (C8_encoder_quality_range_monotone 40 70); lia. Defined.

(* ================================================================== *)
(** * The naming function *)
(* ================================================================== *)

(** [suggest_path] is called by the four operations that rename on a
    collision, each time under the test [dst.exists() and not force]; what
    the test and the function do together is stated with the definition of
    [resolved] below. *)

(* ================================================================== *)
(** * The subprocess wrapper *)
(* ================================================================== *)

(** Unfolds the monad operations in the goal and the hypotheses. *)
Ltac monad_unfold :=
  repeat progress
    (unfold mbind, M_bind, bind, mret, M_ret, raise, try_except, secho,
       created_append, logging_exception, logging_error, logging_debug,
       logging in *;
     simpl in * ).

Section Executor.

Variable subprocess_run : FS → list string → result CompletedProcess * FS.

Definition debug_record (cmd : list string) : log_record :=
  LogRecord DEBUG ("FFmpeg cmd: " +:+ Str.join " " cmd) None.

(** Preview: the command is logged and printed, nothing else happens. *)
Lemma run_ffmpeg_preview (cmd : list string) (st : State) :
  run_ffmpeg subprocess_run cmd true st
  = (Ok true,
     mkState (fs st) (CREATED_FILES st)
       (terminal st ++ ["[DRY-RUN] " +:+ Str.join " " cmd])
       (log st ++ [debug_record cmd])).
Proof. reflexivity. Qed.

(** Execution, by the way the process ends. *)
Lemma run_ffmpeg_exit_zero (cmd : list string) (st : State) r fs' :
  subprocess_run (fs st) cmd = (Ok r, fs') →
  returncode r = 0 →
  run_ffmpeg subprocess_run cmd false st
  = (Ok true,
     mkState fs' (CREATED_FILES st) (terminal st)
       (log st ++ [debug_record cmd])).
Proof.
  intros Hrun Hrc.
  unfold run_ffmpeg, try_except, subprocess_run_M, mbind, M_bind, bind. simpl.
  rewrite Hrun. simpl. rewrite bool_decide_false by (rewrite Hrc; lia). done.
Qed.

Lemma run_ffmpeg_exit_nonzero (cmd : list string) (st : State) r fs' :
  subprocess_run (fs st) cmd = (Ok r, fs') →
  returncode r ≠ 0 →
  run_ffmpeg subprocess_run cmd false st
  = (Ok false,
     mkState fs' (CREATED_FILES st)
       (terminal st ++ ["FFmpeg failed. See avicore.log for details."])
       (log st ++ [debug_record cmd; LogRecord ERROR (stderr r) None])).
Proof.
  intros Hrun Hrc.
  unfold run_ffmpeg, try_except, subprocess_run_M, mbind, M_bind, bind. simpl.
  rewrite Hrun. simpl. rewrite bool_decide_true by done. simpl.
  by rewrite <- !(assoc_L (++)).
Qed.

Lemma run_ffmpeg_not_started (cmd : list string) (st : State) exc fs' :
  subprocess_run (fs st) cmd = (Raise exc, fs') →
  run_ffmpeg subprocess_run cmd false st
  = (Ok false,
     mkState fs' (CREATED_FILES st)
       (terminal st ++ ["Execution error: " +:+ exn_msg exc])
       (log st ++ [debug_record cmd;
                   LogRecord ERROR "Execution failure" (Some exc)])).
Proof.
  intros Hrun.
  unfold run_ffmpeg, try_except, subprocess_run_M, mbind, M_bind, bind. simpl.
  rewrite Hrun. simpl. by rewrite <- !(assoc_L (++)).
Qed.

(** The outcome of the started process that makes [run_ffmpeg] report a
    failure. *)
Definition process_failed (r : result CompletedProcess) : Prop :=
  match r with
  | Ok r => returncode r ≠ 0
  | Raise _ => True
  end.

(** [run_ffmpeg] always returns a boolean; what it leaves behind is the
    file system the process left, the same [CREATED_FILES], and a terminal
    and a log that have only grown, the log by the command first. *)
Lemma run_ffmpeg_total (cmd : list string) (dry : bool) (st : State) :
  ∃ (b : bool) (st' : State) out recs,
    run_ffmpeg subprocess_run cmd dry st = (Ok b, st')
    ∧ CREATED_FILES st' = CREATED_FILES st
    ∧ terminal st' = terminal st ++ out
    ∧ log st' = log st ++ debug_record cmd :: recs
    ∧ fs st' = (if dry then fs st else (subprocess_run (fs st) cmd).2)
    ∧ (b = false ↔
       dry = false ∧ process_failed (subprocess_run (fs st) cmd).1).
Proof.
  destruct dry.
  - rewrite run_ffmpeg_preview. eexists _, _, _, []. simpl.
    repeat split; try done. all: intros; tauto.
  - destruct (subprocess_run (fs st) cmd) as [[r|exc] fs'] eqn:Hrun.
    + destruct (decide (returncode r = 0)) as [Hrc|Hrc].
      * rewrite (run_ffmpeg_exit_zero _ _ _ _ Hrun Hrc).
        eexists _, _, [], []. simpl. rewrite app_nil_r.
        repeat split; try done. intros [_ ?]. done.
      * rewrite (run_ffmpeg_exit_nonzero _ _ _ _ Hrun Hrc).
        eexists _, _, _, [_]. simpl. repeat split; done.
    + rewrite (run_ffmpeg_not_started _ _ _ _ Hrun).
      eexists _, _, _, [_]. simpl. repeat split; done.
Qed.

(** C9: [run_ffmpeg] never raises and always returns a boolean.  In preview
    mode the result is [True] and the state reached is the initial one with
    the rendered command appended to the terminal (and to the debug log),
    whatever the external process would do; otherwise the file system is
    the one the process left and the result is [False] exactly when the
    process exited with a non-zero status or could not be started. *)
Theorem C9_run_ffmpeg_boolean_outcome
    (cmd : list string) (dry : bool) (st : State) :
  ∃ (b : bool) (st' : State),
    run_ffmpeg subprocess_run cmd dry st = (Ok b, st')
    ∧ (if dry then
         b = true
         ∧ st' = mkState (fs st) (CREATED_FILES st)
                   (terminal st ++ ["[DRY-RUN] " +:+ Str.join " " cmd])
                   (log st ++ [debug_record cmd])
       else
         fs st' = (subprocess_run (fs st) cmd).2
         ∧ (b = false ↔ process_failed (subprocess_run (fs st) cmd).1)).
Proof.
  destruct dry.
  - rewrite run_ffmpeg_preview. by eexists _, _.
  - destruct (run_ffmpeg_total cmd false st)
      as (b & st' & out & recs & -> & _ & _ & _ & Hfs & Hb).
    exists b, st'. split; [done|]. split; [done|]. tauto.
Qed.

End Executor.

(* ================================================================== *)
(** * Backup and the order of effects *)
(* ================================================================== *)

(** C2, at a preview run: [--dry-run image convert a.png webp] in a directory
    that holds [a.png].  [run_ffmpeg] answers [True] without starting the
    encoder (the result is the same for every encoder), the loop body then
    calls [backup_original], and the source has moved to [backup/a.png]
    although [a.webp] was never produced. *)
Theorem C2_preview_moves_source_without_output
    (subprocess_run : FS → list string → result CompletedProcess * FS) :
  ∃ st' : State,
    image_convert subprocess_run Scenario.glob_literal Scenario.ctx_preview
      ["a.png"] "webp" false (Scenario.start Scenario.one_picture)
    = (Ok tt, st')
    ∧ fs st' !! ["a.png"] = None
    ∧ fs st' !! ["backup"; "a.png"] = Some File
    ∧ fs st' !! ["a.webp"] = None
    ∧ terminal st' = ["[DRY-RUN] bin/ffmpeg -i a.png a.webp";
                      "Completed → Success: 1 | Failed: 0"].
Proof.
  eexists. split; [vm_compute; reflexivity|]. by vm_compute.
Qed.

(** C3, at a batch of two clips next to a regular file called [backup]:
    [video convert a.mov b.mov mp4] converts the first clip, the backup of
    the first clip raises, and the exception leaves the loop: the second
    clip is never processed and no summary is printed.  [image compress] on
    the same two files catches the same exception for each file and reports
    two failures. *)
Theorem C3_backup_failure_aborts_video_convert :
  (∃ st' : State,
     video_convert Scenario.encoder_ok Scenario.glob_literal Scenario.ctx_run
       ["a.mov"; "b.mov"] "mp4" false false
       (Scenario.start Scenario.backup_is_a_file)
     = (Raise (Exn FileExistsError "File exists"), st')
     ∧ fs st' !! ["a.mp4"] = Some File
     ∧ fs st' !! ["b.mp4"] = None
     ∧ terminal st' = [])
  ∧ (∃ st' : State,
       image_compress Scenario.encoder_ok Scenario.glob_literal
         Scenario.ctx_run ["a.mov"; "b.mov"] 60 false
         (Scenario.start Scenario.backup_is_a_file)
       = (Ok tt, st')
       ∧ terminal st' = ["Batch Report → Success: 0, Failed: 2"]).
Proof.
  split; (eexists; split; [vm_compute; reflexivity|]); by vm_compute.
Qed.

(* ================================================================== *)
(** * The loop bodies *)
(* ================================================================== *)

Section Batch.

Variable subprocess_run : FS → list string → result CompletedProcess * FS.
Variable glob : FS → string → list string.

(** The state with [lines] written to the terminal. *)
Definition echoed (st : State) (lines : list string) : State :=
  mkState (fs st) (CREATED_FILES st) (terminal st ++ lines) (log st).

(** [run_ffmpeg] was called with [cmd] between [st] and [st']: its first
    action is to log the command. *)
Definition invoked (cmd : list string) (st st' : State) : Prop :=
  ∃ recs, log st' = log st ++ debug_record cmd :: recs.


(** What the bodies of the loops of video convert, video mute and image
    convert do once the command is built. *)
Definition settle (ctx : Ctx) (cmd : list string) (src dst : Path)
    (ok fail : nat) : M (nat * nat) :=
  let* success := run_ffmpeg subprocess_run cmd (dry_run ctx) in
  if success then
    backup_original src ;;
    created_append dst ;;
    mret (S ok, fail)
  else mret (ok, S fail).

(** [st'] differs from [st] in the file system at most. *)
Definition same_but_fs (st st' : State) : Prop :=
  CREATED_FILES st' = CREATED_FILES st
  ∧ terminal st' = terminal st
  ∧ log st' = log st.

Lemma mkdir_exist_ok_frame (p : Path) (st : State) r st' :
  OS.mkdir_exist_ok p st = (r, st') → same_but_fs st st'.
Proof.
  unfold OS.mkdir_exist_ok, get_fs, bind, OS.set_fs, raise, mret, M_ret.
  destruct (fs st !! p) as [[]|];
    [| |destruct (fs st !! PathLib.parent p) as [[]|]];
    intros H; by simplify_eq/=.
Qed.

Lemma rename_frame (src dst : Path) (st : State) r st' :
  OS.rename src dst st = (r, st') → same_but_fs st st'.
Proof.
  unfold OS.rename, get_fs, bind, OS.set_fs, raise.
  destruct (fs st !! src);
    [destruct (fs st !! PathLib.parent dst) as [[]|]|];
    intros H; by simplify_eq/=.
Qed.

(** [backup_original] touches the file system only. *)
Lemma backup_original_frame (src : Path) (st : State) r st' :
  backup_original src st = (r, st') → same_but_fs st st'.
Proof.
  unfold backup_original, mbind, M_bind, bind, get_fs, mret, M_ret.
  destruct (OS.mkdir_exist_ok _ st) as [[[]|e] st1] eqn:Hmk;
    apply mkdir_exist_ok_frame in Hmk as (Hc & Ht & Hl).
  - destruct (OS.rename _ _ st1) as [[[]|e] st2] eqn:Hrn;
      apply rename_frame in Hrn as (Hc' & Ht' & Hl');
      intros H; simplify_eq/=; unfold same_but_fs;
      repeat split; congruence.
  - intros H; simplify_eq/=. done.
Qed.


Lemma settle_invoked ctx cmd src dst ok fail st r st' :
  settle ctx cmd src dst ok fail st = (r, st') → invoked cmd st st'.
Proof.
  unfold settle, bind, invoked. intros H.
  destruct (run_ffmpeg_total subprocess_run cmd (dry_run ctx) st)
    as (b & st1 & out & recs & Hrun & _ & _ & Hlog & _).
  rewrite Hrun in H. exists recs. destruct b.
  - monad_unfold.
    destruct (backup_original src st1) as [[t|e] st2] eqn:Hb;
      apply backup_original_frame in Hb as (_ & _ & Hl);
      simplify_eq/=; congruence.
  - monad_unfold. by simplify_eq/=.
Qed.


(** Outside preview mode, when the process fails (non-zero status, or not
    started) the file system is left as the process left it: the source is
    not moved and nothing is recorded as created. *)
Lemma settle_failure_keeps_source ctx cmd src dst ok fail st :
  dry_run ctx = false →
  process_failed (subprocess_run (fs st) cmd).1 →
  ∃ st', settle ctx cmd src dst ok fail st = (Ok (ok, S fail), st')
         ∧ fs st' = (subprocess_run (fs st) cmd).2
         ∧ CREATED_FILES st' = CREATED_FILES st.
Proof.
  intros Hdry Hfail. unfold settle, bind. rewrite Hdry.
  destruct (subprocess_run (fs st) cmd) as [[r|exc] fs'] eqn:Hrun;
    simpl in Hfail.
  - rewrite (run_ffmpeg_exit_nonzero _ _ _ _ _ Hrun Hfail).
    by eexists.
  - rewrite (run_ffmpeg_not_started _ _ _ _ _ Hrun). by eexists.
Qed.

(** ** The guards on an existing destination *)

Lemma with_name_ok (p : Path) (n : string) (st : State) :
  PathLib.name p ≠ "" →
  with_name p n st = (Ok (PathLib.join (PathLib.parent p) n), st).
Proof. intros H. unfold with_name. by rewrite bool_decide_false. Qed.

Lemma with_suffix_ok (p : Path) (suf : string) (st : State) :
  PathLib.name p ≠ "" →
  with_suffix p suf st
  = (Ok (PathLib.join (PathLib.parent p) (PathLib.stem p +:+ suf)), st).
Proof. intros H. unfold with_suffix. by rewrite bool_decide_false. Qed.

(** The destination of the three convert operations. *)
Definition converted (src : Path) (format : string) : Path :=
  PathLib.join (PathLib.parent src) (PathLib.stem src +:+ "." +:+ format).

Lemma video_convert_file_skips ctx format fast src ok fail st :
  PathLib.name src ≠ "" →
  OS.exists_ (fs st) (converted src format) = true →
  video_convert_file subprocess_run ctx format fast false src (ok, fail) st
  = (Ok (ok, S fail),
     echoed st ["Skipping existing file: "
                +:+ PathLib.name (converted src format)]).
Proof.
  intros Hname Hex. unfold video_convert_file, bind.
  rewrite with_name_ok by done. unfold OS.path_exists.
  fold (converted src format). rewrite Hex. reflexivity.
Qed.

Lemma video_convert_file_settles ctx format fast force src ok fail st :
  PathLib.name src ≠ "" →
  OS.exists_ (fs st) (converted src format) && negb force = false →
  video_convert_file subprocess_run ctx format fast force src (ok, fail) st
  = settle ctx
      (video_convert_cmd (ffmpeg ctx) fast src (converted src format))
      src (converted src format) ok fail st.
Proof.
  intros Hname Hex. unfold video_convert_file, bind at 1.
  rewrite with_name_ok by done. unfold OS.path_exists, bind at 1.
  fold (converted src format). rewrite Hex. reflexivity.
Qed.

Lemma video_mute_file_skips ctx src ok fail st :
  OS.exists_ (fs st) src = true →
  video_mute_file subprocess_run ctx false src (ok, fail) st
  = (Ok (ok, S fail),
     echoed st ["Skipping existing file: " +:+ PathLib.name src]).
Proof.
  intros Hex. unfold video_mute_file, bind, OS.path_exists.
  rewrite Hex. reflexivity.
Qed.

Lemma video_mute_file_settles ctx force src ok fail st :
  OS.exists_ (fs st) src && negb force = false →
  video_mute_file subprocess_run ctx force src (ok, fail) st
  = settle ctx (video_mute_cmd (ffmpeg ctx) src src) src src ok fail st.
Proof.
  intros Hex. unfold video_mute_file, bind at 1, OS.path_exists.
  rewrite Hex. reflexivity.
Qed.

(** The destination the auto-suffixing operations write to. *)
Definition resolved (fs : FS) (force : bool) (dst : Path) : Path :=
  if OS.exists_ fs dst && negb force then suggest_path fs dst else dst.

Lemma image_convert_file_settles ctx format force src ok fail st :
  PathLib.name src ≠ "" →
  image_convert_file subprocess_run ctx format force src (ok, fail) st
  = settle ctx
      (image_convert_cmd (ffmpeg ctx) src
         (resolved (fs st) force (converted src format)))
      src (resolved (fs st) force (converted src format)) ok fail st.
Proof.
  intros Hname. unfold image_convert_file, bind at 1.
  rewrite with_name_ok by done. reflexivity.
Qed.

Lemma image_compress_file_settles ctx quality force src ok fail st :
  image_compress_file subprocess_run ctx quality force src (ok, fail) st
  = try_except
      (settle ctx
         (image_compress_cmd (ffmpeg ctx) quality src
            (resolved (fs st) force src))
         src (resolved (fs st) force src) ok fail)
      (λ exc, logging_exception "Image compress failure" exc ;;
              mret (ok, S fail)) st.
Proof. reflexivity. Qed.

(** What [audio extract] and [audio convert] do once the command is built;
    [line] is the confirmation printed on success. *)
Definition settle_single (ctx : Ctx) (cmd : list string) (src dst : Path)
    (line : string) : M unit :=
  let* success := run_ffmpeg subprocess_run cmd (dry_run ctx) in
  if success then
    backup_original src ;;
    created_append dst ;;
    secho line
  else mret tt.

Lemma settle_single_invoked ctx cmd src dst line st r st' :
  settle_single ctx cmd src dst line st = (r, st') → invoked cmd st st'.
Proof.
  unfold settle_single, bind, invoked. intros H.
  destruct (run_ffmpeg_total subprocess_run cmd (dry_run ctx) st)
    as (b & st1 & out & recs & Hrun & _ & _ & Hlog & _).
  rewrite Hrun in H. exists recs. destruct b.
  - monad_unfold.
    destruct (backup_original src st1) as [[t|e] st2] eqn:Hb;
      apply backup_original_frame in Hb as (_ & _ & Hl);
      simplify_eq/=; congruence.
  - monad_unfold. by simplify_eq/=.
Qed.


Lemma audio_extract_settles ctx input force st :
  OS.exists_ (fs st) (PathLib.of_str input) = true →
  PathLib.name (PathLib.of_str input) ≠ "" →
  audio_extract subprocess_run ctx input force st
  = settle_single ctx
      (audio_extract_cmd (ffmpeg ctx) (PathLib.of_str input)
         (resolved (fs st) force
            (PathLib.join (PathLib.parent (PathLib.of_str input))
               (PathLib.stem (PathLib.of_str input) +:+ ".mp3"))))
      (PathLib.of_str input)
      (resolved (fs st) force
         (PathLib.join (PathLib.parent (PathLib.of_str input))
            (PathLib.stem (PathLib.of_str input) +:+ ".mp3")))
      ("Extracted → "
       +:+ PathLib.str
             (resolved (fs st) force
                (PathLib.join (PathLib.parent (PathLib.of_str input))
                   (PathLib.stem (PathLib.of_str input) +:+ ".mp3"))))
      st.
Proof.
  intros Hex Hname. unfold audio_extract, bind at 1, OS.path_exists.
  rewrite Hex. simpl. unfold bind at 1.
  rewrite with_suffix_ok by done. reflexivity.
Qed.

Lemma audio_convert_settles ctx input format force st :
  Str.lower format ∈ AUDIO_FORMATS →
  OS.exists_ (fs st) (PathLib.of_str input) = true →
  PathLib.name (PathLib.of_str input) ≠ "" →
  audio_convert subprocess_run ctx input format force st
  = settle_single ctx
      (audio_convert_cmd (ffmpeg ctx) (PathLib.of_str input)
         (resolved (fs st) force (converted (PathLib.of_str input) format)))
      (PathLib.of_str input)
      (resolved (fs st) force (converted (PathLib.of_str input) format))
      ("Converted → "
       +:+ PathLib.str
             (resolved (fs st) force
                (converted (PathLib.of_str input) format)))
      st.
Proof.
  intros Hfmt Hex Hname. unfold audio_convert.
  rewrite bool_decide_false by (by intros ?).
  unfold bind at 1, OS.path_exists.
  rewrite Hex. simpl. unfold bind at 1.
  rewrite with_name_ok by done. reflexivity.
Qed.

Lemma resolved_collision (fs : FS) (dst : Path) :
  OS.exists_ fs dst = true → resolved fs false dst = suggest_path fs dst.
Proof. intros H. unfold resolved. by rewrite H. Qed.

(** C4: the naming function as the program applies it.  [resolved fs force
    dst] is the destination the four operations that rename on a collision
    compute, [if dst.exists() and not force: dst = suggest_path(dst)].
    Without [--force], a destination that does not exist is returned
    unchanged; for one that exists the result is [suggest_path] of it: the
    first of the candidates stem_1, stem_2, ... (counter between stem and
    suffix, in the directory of the destination) that does not exist.  The
    result does not exist and is not the destination. *)
Theorem C4_naming_function (fs : FS) (p : Path) :
  (OS.exists_ fs p = false → resolved fs false p = p)
  ∧ (OS.exists_ fs p = true →
     ∃ k : nat,
       (1 ≤ k)%nat
       ∧ resolved fs false p = suggest_path fs p
       ∧ suggest_path fs p
         = PathLib.join (PathLib.parent p)
             (PathLib.stem p +:+ "_" +:+ pretty k +:+ PathLib.suffix p)
       ∧ (∀ j : nat, (1 ≤ j < k)%nat →
            OS.exists_ fs
              (PathLib.join (PathLib.parent p)
                 (PathLib.stem p +:+ "_" +:+ pretty j +:+ PathLib.suffix p))
            = true)
       ∧ OS.exists_ fs (resolved fs false p) = false
       ∧ resolved fs false p ≠ p).
Proof.
  split.
  - intros Hex. unfold resolved. by rewrite Hex.
  - intros Hex. rewrite resolved_collision by done. unfold suggest_path.
    destruct (suggest_path_loop_spec fs (PathLib.parent p) (PathLib.stem p)
                (PathLib.suffix p) (size fs) 1 (dom fs))
      as (k & Hk & Hres & Hfree & Hbefore).
    { intros ???. by apply exists_dom. }
    { by rewrite size_dom. }
    exists k. rewrite Hres. split; [done|]. split; [done|].
    split; [done|]. split; [exact Hbefore|]. split; [done|].
    apply numbered_ne_self.
Qed.

Lemma try_except_settle_invoked ctx cmd src dst ok fail handler_msg st r st' :
  try_except (settle ctx cmd src dst ok fail)
    (λ exc, logging_exception handler_msg exc ;; mret (ok, S fail)) st
  = (r, st') →
  invoked cmd st st'.
Proof.
  unfold try_except. intros H.
  destruct (settle ctx cmd src dst ok fail st) as [[t|e] st1] eqn:Hs;
    apply settle_invoked in Hs as [recs Hlog].
  - simplify_eq/=. by exists recs.
  - monad_unfold. simplify_eq/=. exists (recs ++ [LogRecord ERROR handler_msg (Some e)]).
    rewrite Hlog. by rewrite <- (assoc_L (++)).
Qed.

(** C5: on a destination that exists, without [--force].  The loop bodies
    of video convert and video mute print the skip line, count one failure
    and do nothing else: the state is otherwise untouched, [run_ffmpeg] is
    not called.  Image convert, image compress, audio extract and audio
    convert replace the destination by [suggest_path] of it and go on as they
    do for a free destination: [run_ffmpeg] is called on the command for the
    new destination, in the mode of the context, and on success the source
    is backed up, the new destination is recorded and the file is counted
    (image compress inside its [try]) or the confirmation line is printed
    (the audio commands).  The quality of image compress is taken in its
    range, 0 to 100. *)
Theorem C5_collision_policy
    (ctx : Ctx) (format : string) (fast : bool) (quality : Z)
    (input : string) (src : Path) (ok fail : nat) (st : State) :
  PathLib.of_str input = src →
  PathLib.name src ≠ "" →
  OS.exists_ (fs st) src = true →
  0 ≤ quality ≤ 100 →
  (OS.exists_ (fs st) (converted src format) = true →
   video_convert_file subprocess_run ctx format fast false src (ok, fail) st
   = (Ok (ok, S fail),
      echoed st ["Skipping existing file: "
                 +:+ PathLib.name (converted src format)]))
  ∧ video_mute_file subprocess_run ctx false src (ok, fail) st
    = (Ok (ok, S fail),
       echoed st ["Skipping existing file: " +:+ PathLib.name src])
  ∧ (OS.exists_ (fs st) (converted src format) = true →
     let dst := suggest_path (fs st) (converted src format) in
     image_convert_file subprocess_run ctx format false src (ok, fail) st
     = settle ctx (image_convert_cmd (ffmpeg ctx) src dst) src dst ok fail st
     ∧ invoked (image_convert_cmd (ffmpeg ctx) src dst) st
         (image_convert_file subprocess_run ctx format false src
            (ok, fail) st).2)
  ∧ (let dst := suggest_path (fs st) src in
     image_compress_file subprocess_run ctx quality false src (ok, fail) st
     = try_except
         (settle ctx (image_compress_cmd (ffmpeg ctx) quality src dst)
            src dst ok fail)
         (λ exc, logging_exception "Image compress failure" exc ;;
                 mret (ok, S fail)) st
     ∧ invoked (image_compress_cmd (ffmpeg ctx) quality src dst) st
         (image_compress_file subprocess_run ctx quality false src
            (ok, fail) st).2)
  ∧ (OS.exists_ (fs st)
       (PathLib.join (PathLib.parent src) (PathLib.stem src +:+ ".mp3"))
     = true →
     let dst :=
       suggest_path (fs st)
         (PathLib.join (PathLib.parent src) (PathLib.stem src +:+ ".mp3")) in
     audio_extract subprocess_run ctx input false st
     = settle_single ctx (audio_extract_cmd (ffmpeg ctx) src dst) src dst
         ("Extracted → " +:+ PathLib.str dst) st
     ∧ invoked (audio_extract_cmd (ffmpeg ctx) src dst) st
         (audio_extract subprocess_run ctx input false st).2)
  ∧ (Str.lower format ∈ AUDIO_FORMATS →
     OS.exists_ (fs st) (converted src format) = true →
     let dst := suggest_path (fs st) (converted src format) in
     audio_convert subprocess_run ctx input format false st
     = settle_single ctx (audio_convert_cmd (ffmpeg ctx) src dst) src dst
         ("Converted → " +:+ PathLib.str dst) st
     ∧ invoked (audio_convert_cmd (ffmpeg ctx) src dst) st
         (audio_convert subprocess_run ctx input format false st).2).
Proof.
  intros <- Hname Hsrc Hquality.
  split; [|split; [|split; [|split; [|split]]]].
  - intros Hdst. by apply video_convert_file_skips.
  - by apply video_mute_file_skips.
  - intros Hdst dst. rewrite image_convert_file_settles by done.
    rewrite resolved_collision by done. split; [done|].
    eapply settle_invoked, surjective_pairing.
  - intros dst. rewrite image_compress_file_settles.
    rewrite resolved_collision by done. split; [done|].
    eapply try_except_settle_invoked, surjective_pairing.
  - intros Hdst dst. rewrite audio_extract_settles by done.
    rewrite resolved_collision by done. split; [done|].
    eapply settle_single_invoked, surjective_pairing.
  - intros Hfmt Hdst dst. rewrite audio_convert_settles by done.
    rewrite resolved_collision by done. split; [done|].
    eapply settle_single_invoked, surjective_pairing.
Qed.

(** ** The tally *)



Lemma skip_guard (present force : bool) :
  present && negb force = true → present = true ∧ force = false.
Proof. destruct present, force; intuition (subst; eauto). Qed.











End Batch.

(* ================================================================== *)
(** * Paths and their text *)
(* ================================================================== *)

Module PathText.

Import PathLib.

(** A part of a path: not empty, not ["."], without separator. *)
Definition component (c : string) : Prop :=
  (c ≠ "" ∧ c ≠ ".") ∧ Str.contains "/" c = false.

Lemma contains_app (c : Ascii.ascii) (s t : string) :
  Str.contains c (s +:+ t) = Str.contains c s || Str.contains c t.
Proof.
  induction s as [|d s IH]; [done|].
  rewrite StrFacts.app_cons. simpl. rewrite IH. by rewrite orb_assoc.
Qed.

Lemma split_on_skip (x s cur : string) :
  Str.contains "/" x = false →
  Str.split_on "/" (x +:+ s) cur = Str.split_on "/" s (cur +:+ x).
Proof.
  revert cur. induction x as [|d x IH]; intros cur Hx.
  - by rewrite StrFacts.app_nil_r.
  - simpl in Hx. apply orb_false_iff in Hx as [Hd Hx].
    rewrite StrFacts.app_cons. simpl. rewrite Hd.
    rewrite IH by done. f_equal.
    induction cur as [|e cur IHc]; [done|].
    rewrite !StrFacts.app_cons. by rewrite IHc.
Qed.

Lemma split_on_join (comps : list string) :
  comps ≠ [] →
  Forall (λ c, Str.contains "/" c = false) comps →
  Str.split_on "/" (Str.join "/" comps) "" = comps.
Proof.
  induction comps as [|x comps IH]; [done|]. intros _ Hall.
  apply Forall_cons in Hall as [Hx Hall].
  destruct comps as [|y comps].
  - simpl. rewrite <- (StrFacts.app_nil_r x) at 1.
    by rewrite split_on_skip.
  - change (Str.join "/" (x :: y :: comps))
      with (x +:+ "/" +:+ Str.join "/" (y :: comps)).
    rewrite split_on_skip by done.
    change ("/" +:+ ?t) with (String "/" t). simpl.
    f_equal. by apply IH.
Qed.

Lemma split_on_pieces (s cur : string) :
  Str.contains "/" cur = false →
  Forall (λ c, Str.contains "/" c = false) (Str.split_on "/" s cur).
Proof.
  revert cur. induction s as [|d s IH]; intros cur Hcur; simpl.
  - by apply Forall_singleton.
  - destruct (Ascii.eqb d "/") eqn:Hd.
    + apply Forall_cons. split; [done|]. by apply IH.
    + apply IH. rewrite contains_app. simpl. by rewrite Hcur, Hd.
Qed.

Lemma components_of (s : string) :
  Forall component
    (filter (λ c, c ≠ "" ∧ c ≠ ".") (Str.split_on "/" s "")).
Proof.
  apply Forall_forall. intros c [Hc Hin]%list_elem_of_filter.
  split; [done|].
  pose proof (split_on_pieces s "" eq_refl) as Hall.
  by eapply Forall_forall in Hall.
Qed.

Lemma filter_components (comps : list string) :
  Forall component comps →
  filter (λ c, c ≠ "" ∧ c ≠ ".") comps = comps.
Proof.
  induction 1 as [|c comps [Hc _] _ IH]; [done|].
  rewrite filter_cons_True by done. by rewrite IH.
Qed.

Lemma join_relative (x : string) (comps : list string) :
  component x → is_absolute (Str.join "/" (x :: comps)) = false.
Proof.
  intros [[Hne _] Hsep]. destruct x as [|c x]; [done|].
  simpl in Hsep. apply orb_false_iff in Hsep as [Hc _].
  destruct comps as [|y comps]; [done|].
  change (Str.join "/" (String c x :: y :: comps))
    with (String c (x +:+ "/" +:+ Str.join "/" (y :: comps))).
  done.
Qed.

(** Reading back the text of a path that was read from text gives the same
    path: [Path(str(Path(s))) == Path(s)]. *)
Lemma of_str_str (s : string) : of_str (str (of_str s)) = of_str s.
Proof.
  unfold of_str at 2 3.
  pose proof (components_of s) as Hall.
  set (comps := filter _ (Str.split_on "/" s "")) in *. clearbody comps.
  assert (Forall (λ c, Str.contains "/" c = false) comps) as Hsep
    by (eapply Forall_impl; [done|]; by intros ? [_ ?]).
  destruct (is_absolute s).
  - unfold str. rewrite bool_decide_true by done.
    unfold of_str. change ("/" +:+ ?t) with (String "/" t). simpl.
    rewrite filter_cons_False by tauto. f_equal.
    destruct comps as [|x comps]; [done|].
    rewrite split_on_join by done. by apply filter_components.
  - destruct comps as [|x comps]; [done|].
    unfold str. apply Forall_cons in Hall as Hx. destruct Hx as [Hx _].
    rewrite bool_decide_false
      by (intros ->; by destruct Hx as [_ ?]).
    unfold of_str. rewrite join_relative by done.
    rewrite split_on_join by done. by apply filter_components.
Qed.

End PathText.

(* ================================================================== *)
(** * Input expansion *)
(* ================================================================== *)

Section Expansion.

Variable glob : FS → string → list string.

(** One insertion into the dictionary. *)
Definition dict_insert (d : list Path) (k : Path) : list Path :=
  if bool_decide (k ∈ d) then d else d ++ [k].

(** The keys not seen so far, each at its first occurrence. *)
Fixpoint first_occurrences (seen : list Path) (keys : list Path)
  : list Path :=
  match keys with
  | [] => []
  | k :: keys' =>
      if bool_decide (k ∈ seen) then first_occurrences seen keys'
      else k :: first_occurrences (seen ++ [k]) keys'
  end.

Lemma foldl_dict_insert (d keys : list Path) :
  foldl dict_insert d keys = d ++ first_occurrences d keys.
Proof.
  revert d. induction keys as [|k keys IH]; intros d; simpl.
  - by rewrite app_nil_r.
  - rewrite IH. unfold dict_insert. case_bool_decide; [done|].
    by rewrite <- (assoc_L (++)).
Qed.

Lemma dict_fromkeys_first_occurrences (keys : list Path) :
  dict_fromkeys keys = first_occurrences [] keys.
Proof. apply (foldl_dict_insert [] keys). Qed.

Lemma first_occurrences_elem (seen keys : list Path) (x : Path) :
  x ∈ first_occurrences seen keys ↔ (x ∉ seen) ∧ x ∈ keys.
Proof.
  revert seen. induction keys as [|k keys IH]; intros seen; simpl.
  - rewrite !elem_of_nil. tauto.
  - case_bool_decide as Hk.
    + rewrite IH, elem_of_cons. intuition congruence.
    + rewrite !elem_of_cons, IH, elem_of_app, list_elem_of_singleton.
      destruct (decide (x = k)); intuition congruence.
Qed.

Lemma first_occurrences_NoDup (seen keys : list Path) :
  NoDup (first_occurrences seen keys).
Proof.
  revert seen. induction keys as [|k keys IH]; intros seen; simpl.
  - constructor.
  - case_bool_decide; [done|]. constructor; [|done].
    rewrite first_occurrences_elem, elem_of_app, list_elem_of_singleton.
    tauto.
Qed.

(** [x] stands before [y] in [l]. *)
Definition before (x y : Path) (l : list Path) : Prop :=
  ∃ l1 l2 l3, l = l1 ++ x :: l2 ++ y :: l3.

(** [x] occurs in [l], and [y] does not occur before the first [x]. *)
Definition first_before (x y : Path) (l : list Path) : Prop :=
  ∃ l1 l2, l = l1 ++ x :: l2 ∧ (x ∉ l1) ∧ (y ∉ l1).

Lemma first_occurrences_order (seen keys : list Path) (x y : Path) :
  before x y (first_occurrences seen keys) → first_before x y keys.
Proof.
  revert seen. induction keys as [|k keys IH]; intros seen; simpl.
  - intros (l1 & l2 & l3 & H). by destruct l1.
  - case_bool_decide as Hk.
    + intros Hb.
      assert (x ∈ first_occurrences seen keys ∧
              y ∈ first_occurrences seen keys) as [Hx Hy].
      { destruct Hb as (l1 & l2 & l3 & ->).
        rewrite !elem_of_app, !elem_of_cons, !elem_of_app, !elem_of_cons.
        tauto. }
      apply first_occurrences_elem in Hx as [Hx _].
      apply first_occurrences_elem in Hy as [Hy _].
      destruct (IH _ Hb) as (r1 & r2 & -> & Hx1 & Hy1).
      exists (k :: r1), r2. rewrite !elem_of_cons. intuition congruence.
    + intros (l1 & l2 & l3 & H). destruct l1 as [|a l1];
        injection H as -> H.
      * exists [], keys. rewrite !elem_of_nil. tauto.
      * assert (x ∈ first_occurrences (seen ++ [a]) keys ∧
                y ∈ first_occurrences (seen ++ [a]) keys) as [Hx Hy].
        { rewrite H.
          rewrite !elem_of_app, !elem_of_cons, !elem_of_app, !elem_of_cons.
          tauto. }
        apply first_occurrences_elem in Hx as [Hx _].
        apply first_occurrences_elem in Hy as [Hy _].
        rewrite elem_of_app, list_elem_of_singleton in Hx, Hy.
        destruct (IH (seen ++ [a])) as (r1 & r2 & -> & Hx1 & Hy1).
        { by exists l1, l2, l3. }
        exists (a :: r1), r2. rewrite !elem_of_cons. tauto.
Qed.

(** ** [expand_inputs] *)

Lemma expand_results_concat (fs : FS) (inputs : list string) :
  expand_results glob fs inputs = mjoin (expand_item glob fs <$> inputs).
Proof.
  unfold expand_results.
  assert (∀ acc, foldl (λ results item, results ++ expand_item glob fs item)
                   acc inputs
                 = acc ++ mjoin (expand_item glob fs <$> inputs)) as H.
  { induction inputs as [|i inputs IH]; intros acc; simpl.
    - by rewrite app_nil_r.
    - rewrite IH. by rewrite <- (assoc_L (++)). }
  apply (H []).
Qed.

(** What one pattern contributes: its wildcard matches when there are any,
    else the pattern itself (as the text of its path) when it exists, else
    nothing. *)
Lemma expand_item_cases (fs : FS) (item : string) :
  (glob fs item ≠ [] ∧ expand_item glob fs item = glob fs item)
  ∨ (glob fs item = []
     ∧ OS.exists_ fs (PathLib.of_str item) = true
     ∧ expand_item glob fs item = [PathLib.str (PathLib.of_str item)])
  ∨ (glob fs item = []
     ∧ OS.exists_ fs (PathLib.of_str item) = false
     ∧ expand_item glob fs item = []).
Proof.
  unfold expand_item. case_bool_decide as Hm.
  - by left.
  - right.
    destruct (OS.exists_ fs (PathLib.of_str item)); [left|right]; done.
Qed.

(** Wildcard expansion returns entries that exist. *)
Definition glob_sound (fs : FS) : Prop :=
  ∀ pattern s, s ∈ glob fs pattern → OS.exists_ fs (PathLib.of_str s) = true.

Lemma expand_inputs_elem (fs : FS) (inputs : list string) (p : Path) :
  p ∈ expand_inputs glob fs inputs
  ↔ ∃ item s, item ∈ inputs ∧ s ∈ expand_item glob fs item
              ∧ p = PathLib.of_str s.
Proof.
  unfold expand_inputs.
  rewrite dict_fromkeys_first_occurrences, first_occurrences_elem.
  rewrite list_elem_of_fmap, expand_results_concat.
  split.
  - intros (_ & s & -> & Hs).
    apply list_elem_of_join in Hs as (l & Hs & Hl).
    apply list_elem_of_fmap in Hl as (item & -> & Hitem). eauto.
  - intros (item & s & Hitem & Hs & ->). split; [apply not_elem_of_nil|].
    exists s. split; [done|]. apply list_elem_of_join.
    exists (expand_item glob fs item). split; [done|].
    apply list_elem_of_fmap. eauto.
Qed.

Lemma expand_inputs_exist (fs : FS) (inputs : list string) (p : Path) :
  glob_sound fs →
  p ∈ expand_inputs glob fs inputs → OS.exists_ fs p = true.
Proof.
  intros Hglob (item & s & _ & Hs & ->)%expand_inputs_elem.
  destruct (expand_item_cases fs item)
    as [[_ Heq]|[(_ & Hex & Heq)|(_ & _ & Heq)]]; rewrite Heq in Hs.
  - by eapply Hglob.
  - apply list_elem_of_singleton in Hs as ->.
    by rewrite PathText.of_str_str.
  - by apply elem_of_nil in Hs.
Qed.

End Expansion.

(* ================================================================== *)
(** * The commands *)
(* ================================================================== *)

Section Commands.

Variable subprocess_run : FS → list string → result CompletedProcess * FS.
Variable glob : FS → string → list string.

Lemma for_each_cons {A B} (x : A) (xs : list A) (body : A → B → M B)
    (acc : B) (st : State) :
  for_each (x :: xs) body acc st
  = match body x acc st with
    | (Ok acc', st') => for_each xs body acc' st'
    | (Raise e, st') => (Raise e, st')
    end.
Proof. reflexivity. Qed.

Lemma echoed_nil (st : State) : echoed st [] = st.
Proof. destruct st. unfold echoed. simpl. by rewrite app_nil_r. Qed.

Lemma echoed_echoed (st : State) (l1 l2 : list string) :
  echoed (echoed st l1) l2 = echoed st (l1 ++ l2).
Proof. unfold echoed. simpl. by rewrite <- (assoc_L (++)). Qed.

(** [f"Skipping existing file: {dst.name}"] *)
Definition skip_line (dst : Path) : string :=
  "Skipping existing file: " +:+ PathLib.name dst.

Lemma video_mute_loop_skips ctx (files : list Path) :
  ∀ ok fail st,
    (∀ p, p ∈ files → OS.exists_ (fs st) p = true) →
    for_each files (video_mute_file subprocess_run ctx false) (ok, fail) st
    = (Ok (ok, (length files + fail)%nat), echoed st (skip_line <$> files)).
Proof.
  induction files as [|src files IH]; intros ok fail st Hex.
  - simpl. by rewrite echoed_nil.
  - rewrite for_each_cons.
    rewrite video_mute_file_skips by (apply Hex; left).
    rewrite IH by (intros p Hp; apply Hex; by right).
    rewrite echoed_echoed. simpl. by rewrite Nat.add_succ_r.
Qed.

(** C10: without [--force], video mute skips every resolved file: the
    destination is the source, which exists, so for each file the skip line
    is printed, one failure is counted and nothing else happens; the command
    ends with [Success: 0 | Failed: N] for the [N] resolved files. *)
Theorem C10_mute_without_force_skips_every_file
    (ctx : Ctx) (input : list string) (st : State) :
  glob_sound glob (fs st) →
  expand_inputs glob (fs st) input ≠ [] →
  video_mute subprocess_run glob ctx input false st
  = (Ok tt,
     echoed st
       ((skip_line <$> expand_inputs glob (fs st) input)
        ++ [completed_line 0 (length (expand_inputs glob (fs st) input))])).
Proof.
  intros Hglob Hfiles.
  unfold video_mute, expand_inputs_M, get_fs, bind at 1 2. simpl.
  rewrite bool_decide_false by done. unfold bind.
  rewrite video_mute_loop_skips
    by (intros p Hp; by eapply expand_inputs_exist).
  unfold secho. simpl. rewrite Nat.add_0_r.
  unfold echoed. simpl. by rewrite <- (assoc_L (++)).
Qed.

(** ** Commands that complete print their tally *)





(** ** A file the encoder rejects *)












(** ** No input *)

Lemma no_input_raises {A} (exc : exn) (k : list Path → M A)
    (input : list string) (st : State) :
  expand_inputs glob (fs st) input = [] →
  (let* files := expand_inputs_M glob input in
   if bool_decide (files = []) then raise exc else k files) st
  = (Raise exc, st).
Proof.
  intros H. unfold expand_inputs_M, get_fs, bind. simpl.
  by rewrite bool_decide_true.
Qed.

(** C6: what [expand_inputs] returns.  A path is returned exactly when it
    is the path of a wildcard match of some pattern, or of a pattern that
    has no match and exists; a pattern with neither adds nothing.  The list
    has no duplicates and keeps the order of first matches: when [x] comes
    before [y] in the result, [y] was not matched before the first match of
    [x].  When wildcard expansion returns existing entries, every returned
    path exists.  The four batch commands, which are the callers of
    [expand_inputs], raise the fatal [ClickException] when the result is
    empty; the two audio commands take one path, do not expand it, and raise
    the fatal [ClickException] when it does not exist. *)
Theorem C6_expand_inputs_deduplicates_in_order
    (st : State) (inputs : list string) :
  (∀ p : Path,
     p ∈ expand_inputs glob (fs st) inputs
     ↔ ∃ item s,
         item ∈ inputs ∧ p = PathLib.of_str s
         ∧ ((glob (fs st) item ≠ [] ∧ s ∈ glob (fs st) item)
            ∨ (glob (fs st) item = []
               ∧ OS.exists_ (fs st) (PathLib.of_str item) = true
               ∧ s = PathLib.str (PathLib.of_str item))))
  ∧ NoDup (expand_inputs glob (fs st) inputs)
  ∧ (∀ x y : Path,
       before x y (expand_inputs glob (fs st) inputs) →
       first_before x y
         (PathLib.of_str <$> mjoin (expand_item glob (fs st) <$> inputs)))
  ∧ (glob_sound glob (fs st) →
     ∀ p, p ∈ expand_inputs glob (fs st) inputs →
          OS.exists_ (fs st) p = true)
  ∧ (expand_inputs glob (fs st) inputs = [] →
     ∀ (ctx : Ctx) (format : string) (fast force : bool) (quality : Z),
       (Str.lower format ∈ VIDEO_FORMATS →
        video_convert subprocess_run glob ctx inputs format fast force st
        = (Raise (Exn ClickException "No input files resolved"), st))
       ∧ video_mute subprocess_run glob ctx inputs force st
         = (Raise (Exn ClickException "No input files resolved"), st)
       ∧ (Str.lower format ∈ IMAGE_FORMATS →
          image_convert subprocess_run glob ctx inputs format force st
          = (Raise (Exn ClickException "No input files resolved"), st))
       ∧ image_compress subprocess_run glob ctx inputs quality force st
         = (Raise (Exn ClickException "No input files resolved."), st))
  ∧ (∀ (ctx : Ctx) (input format : string) (force : bool),
       OS.exists_ (fs st) (PathLib.of_str input) = false →
       audio_extract subprocess_run ctx input force st
       = (Raise (Exn ClickException
                   ("Input not found: "
                    +:+ PathLib.str (PathLib.of_str input))), st)
       ∧ (Str.lower format ∈ AUDIO_FORMATS →
          audio_convert subprocess_run ctx input format force st
          = (Raise (Exn ClickException
                      ("Input not found: "
                       +:+ PathLib.str (PathLib.of_str input))), st))).
Proof.
  split; [|split; [|split; [|split; [|split]]]].
  - intros p. rewrite expand_inputs_elem. split.
    + intros (item & s & Hitem & Hs & ->). exists item, s.
      split; [done|]. split; [done|].
      destruct (expand_item_cases glob (fs st) item)
        as [[Hm Heq]|[(Hm & Hex & Heq)|(_ & _ & Heq)]]; rewrite Heq in Hs.
      * by left.
      * right. by apply list_elem_of_singleton in Hs.
      * by apply elem_of_nil in Hs.
    + intros (item & s & Hitem & -> & Hs). exists item, s.
      split; [done|]. split; [|done].
      destruct (expand_item_cases glob (fs st) item)
        as [[Hm Heq]|[(Hm & Hex & Heq)|(Hm & Hex & Heq)]]; rewrite Heq;
        destruct Hs as [[Hne Hs]|(Hnil & Hex' & ->)];
        try done; try congruence.
      by apply list_elem_of_singleton.
  - unfold expand_inputs. rewrite dict_fromkeys_first_occurrences.
    apply first_occurrences_NoDup.
  - intros x y. unfold expand_inputs.
    rewrite dict_fromkeys_first_occurrences, expand_results_concat.
    apply first_occurrences_order.
  - intros Hglob p. by apply expand_inputs_exist.
  - intros Hempty ctx format fast force quality.
    split; [|split; [|split]].
    + intros Hfmt. unfold video_convert.
      rewrite bool_decide_false by (by intros ?).
      by apply no_input_raises.
    + by apply no_input_raises.
    + intros Hfmt. unfold image_convert.
      rewrite bool_decide_false by (by intros ?).
      by apply no_input_raises.
    + by apply no_input_raises.
  - intros ctx input format force Hmissing. split.
    + unfold audio_extract, bind, OS.path_exists. by rewrite Hmissing.
    + intros Hfmt. unfold audio_convert.
      rewrite bool_decide_false by (by intros ?).
      unfold bind, OS.path_exists. by rewrite Hmissing.
Qed.

End Commands.

(* ================================================================== *)
(** * The commands on concrete inputs *)
(* ================================================================== *)

Lemma glob_literal_sound (fs : FS) : glob_sound Scenario.glob_literal fs.
Proof.
  intros pattern s Hs. unfold Scenario.glob_literal in Hs.
  destruct (OS.exists_ fs (PathLib.of_str pattern)) eqn:Hex.
  - by apply list_elem_of_singleton in Hs as ->.
  - by apply elem_of_nil in Hs.
Qed.






(** A clip next to [clip.mp4] and [clip.mp3]: converting it to either
    collides.  The video conversion skips it; the audio conversion writes
    [clip_1.mp3] and leaves [clip.mp3]. *)
Lemma C5_collision_policy_witness :
  (PathLib.of_str "clip.mov" = ["clip.mov"]
   ∧ PathLib.name ["clip.mov"] ≠ ""
   ∧ OS.exists_ Scenario.clip_converted_before ["clip.mov"] = true
   ∧ 0 ≤ 60 ≤ 100
   ∧ OS.exists_ Scenario.clip_converted_before (converted ["clip.mov"] "mp4")
     = true
   ∧ Str.lower "mp3" ∈ AUDIO_FORMATS
   ∧ OS.exists_ Scenario.clip_converted_before (converted ["clip.mov"] "mp3")
     = true)
  ∧ video_convert_file Scenario.encoder_ok Scenario.ctx_run "mp4" false false
      ["clip.mov"] (0%nat, 0%nat)
      (Scenario.start Scenario.clip_converted_before)
    = (Ok (0%nat, 1%nat),
       echoed (Scenario.start Scenario.clip_converted_before)
         ["Skipping existing file: clip.mp4"])
  ∧ (∃ st',
       audio_convert Scenario.encoder_ok Scenario.ctx_run "clip.mov" "mp3"
         false (Scenario.start Scenario.clip_converted_before) = (Ok tt, st')
       ∧ terminal st' = ["Converted → clip_1.mp3"]
       ∧ CREATED_FILES st' = [["clip_1.mp3"]]
       ∧ fs st' !! ["clip_1.mp3"] = Some File
       ∧ fs st' !! ["clip.mp3"] = Some File
       ∧ fs st' !! ["backup"; "clip.mov"] = Some File).
Proof.
  assert (PathLib.name ["clip.mov"] ≠ "") as Hname
    by (vm_compute; discriminate).
  assert (0 ≤ 60 ≤ 100) as Hquality by lia.
  assert (Str.lower "mp3" ∈ AUDIO_FORMATS) as Hfmt
    by (vm_compute; repeat constructor).
  split; [repeat split; try exact Hname; try exact Hfmt; lia|].
  split.
  - destruct (C5_collision_policy Scenario.encoder_ok Scenario.ctx_run
                "mp4" false 60 "clip.mov" ["clip.mov"] 0%nat 0%nat
                (Scenario.start Scenario.clip_converted_before)
                eq_refl Hname eq_refl Hquality)
      as (Hvideo & _).
    exact (Hvideo eq_refl).
  - destruct (C5_collision_policy Scenario.encoder_ok Scenario.ctx_run
                "mp3" false 60 "clip.mov" ["clip.mov"] 0%nat 0%nat
                (Scenario.start Scenario.clip_converted_before)
                eq_refl Hname eq_refl Hquality)
      as (_ & _ & _ & _ & _ & Haudio).
    destruct (Haudio Hfmt eq_refl) as [Hgoes _]. rewrite Hgoes.
    match goal with |- ∃ st', ?m = _ ∧ _ => set (res := m) end.
    assert (res = (Ok tt, res.2)) as Heq by (vm_compute; reflexivity).
    exists res.2. split; [exact Heq|].
    repeat split; vm_compute; reflexivity.
Defined.

(** A clip next to [clip.mp3]: [clip.mp3] as a destination becomes
    [clip_1.mp3], a destination that is free is kept. *)
Lemma C4_naming_function_witness :
  (OS.exists_ Scenario.clip_and_track ["clip.ogg"] = false
   ∧ OS.exists_ Scenario.clip_and_track ["clip.mp3"] = true)
  ∧ resolved Scenario.clip_and_track false ["clip.ogg"] = ["clip.ogg"]
  ∧ resolved Scenario.clip_and_track false ["clip.mp3"] ≠ ["clip.mp3"]
  ∧ OS.exists_ Scenario.clip_and_track
      (resolved Scenario.clip_and_track false ["clip.mp3"]) = false.
Proof.
  split; [by split|].
  destruct (C4_naming_function Scenario.clip_and_track ["clip.ogg"])
    as [Hfree _].
  destruct (C4_naming_function Scenario.clip_and_track ["clip.mp3"])
    as [_ Htaken].
  split; [exact (Hfree eq_refl)|].
  destruct (Htaken eq_refl) as (k & _ & _ & _ & _ & Hnew & Hne).
  by split.
Defined.

(** Three clips, one of them named twice. *)
Lemma C10_mute_without_force_skips_every_file_witness :
  (glob_sound Scenario.glob_literal Scenario.three_clips
   ∧ expand_inputs Scenario.glob_literal Scenario.three_clips
       ["a.mp4"; "b.mp4"; "a.mp4"; "c.mp4"] ≠ [])
  ∧ video_mute Scenario.encoder_ok Scenario.glob_literal Scenario.ctx_run
      ["a.mp4"; "b.mp4"; "a.mp4"; "c.mp4"] false
      (Scenario.start Scenario.three_clips)
    = (Ok tt,
       echoed (Scenario.start Scenario.three_clips)
         ((skip_line
             <$> expand_inputs Scenario.glob_literal Scenario.three_clips
                   ["a.mp4"; "b.mp4"; "a.mp4"; "c.mp4"])
          ++ [completed_line 0
                (length
                   (expand_inputs Scenario.glob_literal Scenario.three_clips
                      ["a.mp4"; "b.mp4"; "a.mp4"; "c.mp4"]))])).
Proof.
  assert (expand_inputs Scenario.glob_literal Scenario.three_clips
            ["a.mp4"; "b.mp4"; "a.mp4"; "c.mp4"] ≠ []) as Hfiles
    by (vm_compute; discriminate).
  split; [split; [apply glob_literal_sound|exact Hfiles]|].
  apply (C10_mute_without_force_skips_every_file
           Scenario.encoder_ok Scenario.glob_literal Scenario.ctx_run
           ["a.mp4"; "b.mp4"; "a.mp4"; "c.mp4"]
           (Scenario.start Scenario.three_clips)
           (glob_literal_sound _) Hfiles).
Defined.

(** The same run, evaluated: three skip lines and [Failed: 3]; the
    pattern given twice is counted once. *)
Example mute_three_clips :
  ∃ st',
    video_mute Scenario.encoder_ok Scenario.glob_literal Scenario.ctx_run
      ["a.mp4"; "b.mp4"; "a.mp4"; "c.mp4"] false
      (Scenario.start Scenario.three_clips) = (Ok tt, st')
    ∧ fs st' = Scenario.three_clips
    ∧ terminal st' = ["Skipping existing file: a.mp4";
                      "Skipping existing file: b.mp4";
                      "Skipping existing file: c.mp4";
                      "Completed → Success: 0 | Failed: 3"].
Proof. eexists. split; [vm_compute; reflexivity|]. by vm_compute. Qed.

(** Five patterns over three clips: two name the same file in different
    ways, one is given twice, one matches nothing. *)
Lemma C6_expand_inputs_deduplicates_in_order_witness :
  expand_inputs Scenario.glob_literal Scenario.three_clips
    ["b.mp4"; "./a.mp4"; "missing.mp4"; "b.mp4"; "a.mp4"]
  = [["b.mp4"]; ["a.mp4"]]
  ∧ NoDup (expand_inputs Scenario.glob_literal Scenario.three_clips
             ["b.mp4"; "./a.mp4"; "missing.mp4"; "b.mp4"; "a.mp4"])
  ∧ (expand_inputs Scenario.glob_literal Scenario.three_clips ["missing.mp4"]
     = []
     ∧ video_mute Scenario.encoder_ok Scenario.glob_literal Scenario.ctx_run
         ["missing.mp4"] false (Scenario.start Scenario.three_clips)
       = (Raise (Exn ClickException "No input files resolved"),
          Scenario.start Scenario.three_clips)).
Proof.
  split; [by vm_compute|].
  split.
  - exact (proj1 (proj2 (C6_expand_inputs_deduplicates_in_order
                           Scenario.encoder_ok Scenario.glob_literal
                           (Scenario.start Scenario.three_clips)
                           ["b.mp4"; "./a.mp4"; "missing.mp4"; "b.mp4";
                            "a.mp4"]))).
  - assert (expand_inputs Scenario.glob_literal Scenario.three_clips
              ["missing.mp4"] = []) as Hempty by (by vm_compute).
    split; [exact Hempty|].
    destruct (C6_expand_inputs_deduplicates_in_order
                Scenario.encoder_ok Scenario.glob_literal
                (Scenario.start Scenario.three_clips) ["missing.mp4"])
      as (_ & _ & _ & _ & Hfatal & _).
    destruct (Hfatal Hempty Scenario.ctx_run "mp4" false false 60)
      as (_ & Hmute & _).
    exact Hmute.
Defined.

(* ================================================================== *)
(** * Renaming in the file system *)
(* ================================================================== *)

Section Relocate.

Implicit Types (fs : FS) (src dst p q : Path).

Lemma rebase_prefixed src dst q :
  src `prefix_of` q → ∃ r, q = src ++ r ∧ OS.rebase src dst q = dst ++ r.
Proof.
  intros [r ->]. exists r. split; [done|].
  unfold OS.rebase. by rewrite drop_app_length.
Qed.

Lemma rebase_inj src dst q1 q2 :
  src `prefix_of` q1 → src `prefix_of` q2 →
  OS.rebase src dst q1 = OS.rebase src dst q2 → q1 = q2.
Proof.
  intros (r1 & -> & ->)%(rebase_prefixed _ dst)
         (r2 & -> & ->)%(rebase_prefixed _ dst) H.
  by apply app_inv_head in H as ->.
Qed.

Lemma moved_keys src fs q :
  q ∈ (map_to_list (filter (λ kv, src `prefix_of` kv.1) fs)).*1 →
  src `prefix_of` q ∧ is_Some (fs !! q).
Proof.
  intros ([q' n] & -> & Hin%elem_of_map_to_list)%list_elem_of_fmap.
  apply map_lookup_filter_Some in Hin as [Hq Hpre]. eauto.
Qed.

Lemma fst_prod_map (f : Path → Path) (l : list (Path * node)) :
  (prod_map f id <$> l).*1 = f <$> l.*1.
Proof.
  induction l as [|[q n] l IH]; [done|].
  rewrite !fmap_cons. simpl. f_equal. apply IH.
Qed.

Lemma moved_NoDup src dst fs :
  NoDup ((prod_map (OS.rebase src dst) id
            <$> map_to_list (filter (λ kv, src `prefix_of` kv.1) fs)).*1).
Proof.
  rewrite fst_prod_map.
  apply NoDup_fmap_2_strong; [|apply NoDup_fst_map_to_list].
  intros q1 q2 [H1 _]%moved_keys [H2 _]%moved_keys. by apply rebase_inj.
Qed.

(** An entry at or below [src] is found at the same place at or below
    [dst]. *)
Lemma lookup_relocate_moved src dst fs q n :
  src `prefix_of` q → fs !! q = Some n →
  OS.relocate src dst fs !! OS.rebase src dst q = Some n.
Proof.
  intros Hpre Hq. unfold OS.relocate. apply lookup_union_Some_l.
  apply elem_of_list_to_map_1; [apply moved_NoDup|].
  apply list_elem_of_fmap. exists (q, n). split; [done|].
  apply elem_of_map_to_list. by apply map_lookup_filter_Some.
Qed.

(** Outside [src] and [dst] nothing changes. *)
Lemma lookup_relocate_other src dst fs p :
  ¬ src `prefix_of` p → ¬ dst `prefix_of` p →
  OS.relocate src dst fs !! p = fs !! p.
Proof.
  intros Hsrc Hdst. unfold OS.relocate. rewrite lookup_union_r.
  - destruct (fs !! p) as [n|] eqn:Hp.
    + by apply map_lookup_filter_Some.
    + apply map_lookup_filter_None. by left.
  - apply not_elem_of_list_to_map. rewrite fst_prod_map.
    intros (q & -> & Hin)%list_elem_of_fmap.
    apply Hdst. by exists (drop (length src) q).
Qed.

(** Nothing is left at or below [src], unless [dst] lies there. *)
Lemma lookup_relocate_gone src dst fs p :
  src `prefix_of` p → ¬ dst `prefix_of` p →
  OS.relocate src dst fs !! p = None.
Proof.
  intros Hsrc Hdst. unfold OS.relocate. rewrite lookup_union_r.
  - apply map_lookup_filter_None. right. intros n _. simpl. tauto.
  - apply not_elem_of_list_to_map. rewrite fst_prod_map.
    intros (q & -> & Hin)%list_elem_of_fmap.
    apply Hdst. by exists (drop (length src) q).
Qed.

End Relocate.

(* ================================================================== *)
(** * What [backup_original] does to the file system *)
(* ================================================================== *)

Section BackupEffect.

Implicit Types (src target p : Path) (st : State).

(** [src.parent / "backup"] *)
Definition backup_dir (src : Path) : Path :=
  PathLib.join (PathLib.parent src) "backup".

Lemma backup_dir_eq src : backup_dir src = PathLib.parent src ++ ["backup"].
Proof. by apply PathFacts.join_nonempty. Qed.

Lemma named_path src :
  PathLib.name src ≠ "" → src = PathLib.parent src ++ [PathLib.name src].
Proof.
  intros Hname. apply PathFacts.parent_name; intros ->; by apply Hname.
Qed.

Lemma parent_snoc (dir : Path) (t : string) :
  dir ++ [t] ≠ ["/"] → PathLib.parent (dir ++ [t]) = dir.
Proof.
  intros H. unfold PathLib.parent. rewrite bool_decide_false by done.
  apply removelast_last.
Qed.

Lemma below_backup_dir src (t : string) : backup_dir src ++ [t] ≠ ["/"].
Proof.
  rewrite backup_dir_eq. intros H. apply (f_equal length) in H.
  rewrite !length_app in H. simpl in H. lia.
Qed.

Lemma backup_target_shape (fs : FS) (dir : Path) (base suffix : string)
    (fuel counter : nat) (target : Path) :
  (∃ t, target = dir ++ [t]) →
  ∃ t, backup_target_loop fs dir base suffix fuel counter target = dir ++ [t].
Proof.
  revert counter target.
  induction fuel as [|fuel IH]; intros counter target Ht; simpl; [done|].
  destruct (OS.exists_ fs target); [|done].
  apply IH. rewrite numbered_eq. eauto.
Qed.

Lemma mkdir_exist_ok_inv p st st1 :
  OS.mkdir_exist_ok p st = (Ok tt, st1) →
  fs st1 !! p = Some Dir
  ∧ (∀ q, q ≠ p → fs st1 !! q = fs st !! q)
  ∧ (fs st !! p = Some Dir
     ∨ (fs st !! p = None ∧ fs st !! PathLib.parent p = Some Dir))
  ∧ same_but_fs st st1.
Proof.
  intros H. pose proof (mkdir_exist_ok_frame _ _ _ _ H) as Hframe.
  unfold OS.mkdir_exist_ok, get_fs, bind, OS.set_fs, raise, mret, M_ret in H.
  destruct (fs st !! p) as [[]|] eqn:Hp; [done| |].
  - simplify_eq/=. tauto.
  - destruct (fs st !! PathLib.parent p) as [[]|] eqn:Hpar; [done| |done].
    simplify_eq/=. split; [apply lookup_insert_eq|].
    split; [intros q Hq; by apply lookup_insert_ne|]. tauto.
Qed.

Lemma mkdir_exist_ok_fails p st e st1 :
  OS.mkdir_exist_ok p st = (Raise e, st1) → st1 = st.
Proof.
  unfold OS.mkdir_exist_ok, get_fs, bind, OS.set_fs, raise, mret, M_ret.
  destruct (fs st !! p) as [[]|] eqn:Hp; [| |
    destruct (fs st !! PathLib.parent p) as [[]|] eqn:Hpar];
    intros H; by simplify_eq/=.
Qed.

Lemma rename_inv src target st1 st2 :
  OS.rename src target st1 = (Ok tt, st2) →
  fs st2 = OS.relocate src target (fs st1).
Proof.
  unfold OS.rename, get_fs, bind, OS.set_fs, raise.
  destruct (fs st1 !! src);
    [destruct (fs st1 !! PathLib.parent target) as [[]|]|];
    intros H; by simplify_eq/=.
Qed.

Lemma rename_ok src target st1 n :
  fs st1 !! src = Some n →
  fs st1 !! PathLib.parent target = Some Dir →
  ∃ st2, OS.rename src target st1 = (Ok tt, st2).
Proof.
  intros Hsrc Hpar. unfold OS.rename, get_fs, bind, OS.set_fs.
  rewrite Hsrc, Hpar. by eexists.
Qed.

(** X1: the backup of an existing regular file that succeeds: the target was
    free, it lies in the backup directory, it holds the file; nothing is
    left at the source; no regular file was in the place of the backup
    directory, which is a directory afterwards; every other entry is as
    before. *)
Theorem backup_original_moves_source src st target st' :
  PathLib.name src ≠ "" →
  fs st !! src = Some File →
  backup_original src st = (Ok target, st') →
  fs st !! target = None
  ∧ PathLib.parent target = backup_dir src
  ∧ fs st' !! target = Some File
  ∧ fs st' !! src = None
  ∧ fs st !! backup_dir src ≠ Some File
  ∧ fs st' !! backup_dir src = Some Dir
  ∧ (∀ p, ¬ src `prefix_of` p → ¬ target `prefix_of` p →
          p ≠ backup_dir src → fs st' !! p = fs st !! p)
  ∧ same_but_fs st st'.
Proof.
  intros Hname Hsrc H.
  pose proof (backup_original_frame _ _ _ _ H) as Hframe.
  pose proof (named_path src Hname) as Hsplit.
  assert (length src = S (length (PathLib.parent src))) as Hlen.
  { rewrite Hsplit at 1. rewrite length_app. simpl. lia. }
  assert (length (backup_dir src) = S (length (PathLib.parent src)))
    as Hblen.
  { rewrite backup_dir_eq, length_app. simpl. lia. }
  unfold backup_original, mbind, M_bind, bind, get_fs, mret, M_ret in H.
  fold (backup_dir src) in H.
  destruct (OS.mkdir_exist_ok (backup_dir src) st) as [[[]|e] st1] eqn:Hmk;
    [|done].
  apply mkdir_exist_ok_inv in Hmk as (Hdir & Hrest & Hbefore & _).
  pose proof (backup_target_free (fs st1) src) as Hfree.
  fold (backup_dir src) in Hfree.
  destruct (backup_target_shape (fs st1) (backup_dir src)
              (PathLib.stem src) (PathLib.suffix src) (size (fs st1)) 1
              (PathLib.join (backup_dir src) (PathLib.name src)))
    as [t Ht].
  { exists (PathLib.name src). by apply PathFacts.join_nonempty. }
  rewrite Ht in H, Hfree.
  destruct (OS.rename src (backup_dir src ++ [t]) st1)
    as [[[]|e] st2] eqn:Hrn; [|done].
  apply rename_inv in Hrn. simplify_eq/=.
  assert (src ≠ backup_dir src) as Hne.
  { intros Heq. rewrite <- Heq in Hbefore. destruct Hbefore as [?|[? _]];
      congruence. }
  assert (¬ backup_dir src ++ [t] `prefix_of` src) as Hshort.
  { intros [r Hr]. apply (f_equal length) in Hr.
    rewrite !length_app in Hr. simpl in Hr. lia. }
  assert (¬ src `prefix_of` backup_dir src) as Hnot.
  { intros [r Hr]. apply Hne. rewrite Hr.
    apply (f_equal length) in Hr. rewrite length_app in Hr.
    destruct r; [by rewrite app_nil_r|]. simpl in Hr. lia. }
  assert (¬ backup_dir src ++ [t] `prefix_of` backup_dir src) as Hnot'.
  { intros [r Hr]. apply (f_equal length) in Hr.
    rewrite !length_app in Hr. simpl in Hr. lia. }
  assert (backup_dir src ++ [t] ≠ backup_dir src) as Hnet.
  { intros Heq. apply (f_equal length) in Heq.
    rewrite length_app in Heq. simpl in Heq. lia. }
  split.
  { rewrite <- Hrest by done.
    unfold OS.exists_ in Hfree. apply bool_decide_eq_false in Hfree.
    by apply eq_None_not_Some. }
  split; [apply parent_snoc, below_backup_dir|].
  rewrite Hrn. split.
  { pose proof (lookup_relocate_moved src (backup_dir src ++ [t]) (fs st1)
                  src File) as Hmoved.
    unfold OS.rebase in Hmoved. rewrite drop_all, app_nil_r in Hmoved.
    apply Hmoved; [done|]. by rewrite Hrest. }
  split; [by apply lookup_relocate_gone|].
  split; [destruct Hbefore as [Hb|[Hb _]]; rewrite Hb; discriminate|].
  split; [by rewrite lookup_relocate_other|].
  split; [|done].
  intros p Hp1 Hp2 Hp3. rewrite lookup_relocate_other by done.
  by apply Hrest.
Qed.

(** The file system of this development decides the directory and nothing
    else (see the note on [OS]): once the backup directory is there, the
    move of an existing file into it goes through.  A backup that raises
    has therefore stopped at the directory, before anything was changed. *)
Lemma backup_original_raise_unchanged src st e st' :
  PathLib.name src ≠ "" →
  fs st !! src = Some File →
  backup_original src st = (Raise e, st') →
  st' = st.
Proof.
  intros Hname Hsrc H.
  unfold backup_original, mbind, M_bind, bind, get_fs, mret, M_ret in H.
  fold (backup_dir src) in H.
  destruct (OS.mkdir_exist_ok (backup_dir src) st) as [[[]|e1] st1] eqn:Hmk.
  - exfalso.
    apply mkdir_exist_ok_inv in Hmk as (Hdir & Hrest & Hbefore & _).
    destruct (backup_target_shape (fs st1) (backup_dir src)
                (PathLib.stem src) (PathLib.suffix src) (size (fs st1)) 1
                (PathLib.join (backup_dir src) (PathLib.name src)))
      as [t Ht].
    { exists (PathLib.name src). by apply PathFacts.join_nonempty. }
    rewrite Ht in H.
    assert (src ≠ backup_dir src) as Hne.
    { intros Heq. rewrite <- Heq in Hbefore. destruct Hbefore as [?|[? _]];
        congruence. }
    destruct (rename_ok src (backup_dir src ++ [t]) st1 File) as [st2 Hrn].
    + by rewrite Hrest.
    + by rewrite parent_snoc by apply below_backup_dir.
    + by rewrite Hrn in H.
  - simplify_eq/=. by apply mkdir_exist_ok_fails in Hmk as ->.
Qed.

(** X2: a backup that fails does not lose the original.  When
    [backup_original] raises on an existing regular file, the file is still
    at its path, and the record of created files, the terminal and the log
    are as before.  A regular file named [backup] in the place of the backup
    directory is such a failure: [mkdir] raises [FileExistsError] and the
    state is untouched. *)
Theorem failed_backup_keeps_source src st :
  PathLib.name src ≠ "" →
  fs st !! src = Some File →
  (∀ e st', backup_original src st = (Raise e, st') →
            fs st' !! src = Some File ∧ same_but_fs st st')
  ∧ (fs st !! backup_dir src = Some File →
     ∃ e, backup_original src st = (Raise e, st)
          ∧ exn_cls e = FileExistsError).
Proof.
  intros Hname Hsrc. split.
  - intros e st' H.
    pose proof (backup_original_frame _ _ _ _ H) as Hframe.
    apply backup_original_raise_unchanged in H as ->; done.
  - intros Hfile. exists (Exn FileExistsError "File exists").
    split; [|done].
    unfold backup_original, mbind, M_bind, bind. fold (backup_dir src).
    unfold OS.mkdir_exist_ok, get_fs, bind. by rewrite Hfile.
Qed.

End BackupEffect.

(* ================================================================== *)
(** * What one iteration leaves behind *)
(* ================================================================== *)

Section Iterations.

Variable subprocess_run : FS → list string → result CompletedProcess * FS.

(** The file system [backup_original] finds after [run_ffmpeg]. *)
Definition after_run (ctx : Ctx) (cmd : list string) (st : State) : FS :=
  if dry_run ctx then fs st else (subprocess_run (fs st) cmd).2.

(** The iteration counted a success: [run_ffmpeg] answered [True], the
    backup of [src] succeeded on the file system the run left, and [dst] was
    recorded. *)
Definition counted_success (ctx : Ctx) (cmd : list string) (src dst : Path)
    (st st' : State) : Prop :=
  ∃ st1 target st2,
    run_ffmpeg subprocess_run cmd (dry_run ctx) st = (Ok true, st1)
    ∧ fs st1 = after_run ctx cmd st
    ∧ backup_original src st1 = (Ok target, st2)
    ∧ fs st' = fs st2
    ∧ CREATED_FILES st' = CREATED_FILES st ++ [dst].

Lemma settle_inv ctx cmd src dst ok fail st ok' fail' st' :
  settle subprocess_run ctx cmd src dst ok fail st = (Ok (ok', fail'), st') →
  (ok' = S ok ∧ fail' = fail ∧ counted_success ctx cmd src dst st st')
  ∨ (ok' = ok ∧ fail' = S fail ∧ CREATED_FILES st' = CREATED_FILES st).
Proof.
  unfold settle, bind. intros H.
  destruct (run_ffmpeg_total subprocess_run cmd (dry_run ctx) st)
    as (b & st1 & out & recs & Hrun & Hc & _ & _ & Hfs & _).
  rewrite Hrun in H. destruct b.
  - left. monad_unfold.
    destruct (backup_original src st1) as [[target|e] st2] eqn:Hb; [|done].
    pose proof (backup_original_frame _ _ _ _ Hb) as (Hc2 & _ & _).
    simplify_eq/=. split; [done|]. split; [done|].
    exists st1, target, st2. rewrite Hc2, Hc. done.
  - right. monad_unfold. simplify_eq/=. done.
Qed.

(** A success is counted only with the source moved into the backup
    directory. *)
Lemma counted_success_moves ctx cmd src dst st st' :
  PathLib.name src ≠ "" →
  after_run ctx cmd st !! src = Some File →
  counted_success ctx cmd src dst st st' →
  fs st' !! src = None
  ∧ (∃ target, PathLib.parent target = backup_dir src
               ∧ fs st' !! target = Some File)
  ∧ CREATED_FILES st' = CREATED_FILES st ++ [dst].
Proof.
  intros Hname Hfile (st1 & target & st2 & _ & Hfs & Hb & Hfs' & Hc).
  rewrite <- Hfs in Hfile.
  destruct (backup_original_moves_source _ _ _ _ Hname Hfile Hb)
    as (_ & Hpar & Htarget & Hgone & _).
  rewrite Hfs'. eauto.
Qed.

Lemma try_except_settle_inv ctx cmd src dst ok fail msg st ok' fail' st' :
  try_except (settle subprocess_run ctx cmd src dst ok fail)
    (λ exc, logging_exception msg exc ;; mret (ok, S fail)) st
  = (Ok (ok', fail'), st') →
  (ok' = S ok ∧ fail' = fail ∧ counted_success ctx cmd src dst st st')
  ∨ (ok' = ok ∧ fail' = S fail ∧ CREATED_FILES st' = CREATED_FILES st).
Proof.
  unfold try_except. intros H.
  destruct (settle _ _ _ _ _ _ _ st) as [[[ok1 fail1]|e] st1] eqn:Hs.
  - simplify_eq/=. by apply settle_inv.
  - right. monad_unfold. simplify_eq/=.
    unfold settle, bind in Hs.
    destruct (run_ffmpeg_total subprocess_run cmd (dry_run ctx) st)
      as (b & st0 & out & recs & Hrun & Hc & _).
    rewrite Hrun in Hs. destruct b; monad_unfold; [|done].
    destruct (backup_original src st0) as [[target|e'] st2] eqn:Hb; [done|].
    pose proof (backup_original_frame _ _ _ _ Hb) as (Hc2 & _ & _).
    simplify_eq/=. split; [done|]. split; [done|]. congruence.
Qed.

(** The four loop bodies: the command run and the destination recorded for
    [src] when the encoder is reached. *)
Definition video_convert_outcome ctx format fast src ok fail st ok' fail' st'
  : Prop :=
  (ok' = S ok ∧ fail' = fail
   ∧ counted_success ctx
       (video_convert_cmd (ffmpeg ctx) fast src (converted src format))
       src (converted src format) st st')
  ∨ (ok' = ok ∧ fail' = S fail ∧ CREATED_FILES st' = CREATED_FILES st).

Lemma video_convert_file_inv ctx format fast force src ok fail st
    ok' fail' st' :
  video_convert_file subprocess_run ctx format fast force src (ok, fail) st
  = (Ok (ok', fail'), st') →
  video_convert_outcome ctx format fast src ok fail st ok' fail' st'.
Proof.
  intros H. destruct (decide (PathLib.name src = "")) as [Hname|Hname].
  { unfold video_convert_file, with_name, bind in H.
    rewrite bool_decide_true in H by done. done. }
  destruct (OS.exists_ (fs st) (converted src format) && negb force)
    eqn:Hguard.
  - apply skip_guard in Hguard as [Hex ->].
    rewrite video_convert_file_skips in H by done. simplify_eq/=.
    by right.
  - rewrite video_convert_file_settles in H by done. by apply settle_inv.
Qed.

Definition video_mute_outcome ctx src ok fail st ok' fail' st' : Prop :=
  (ok' = S ok ∧ fail' = fail
   ∧ counted_success ctx (video_mute_cmd (ffmpeg ctx) src src) src src
       st st')
  ∨ (ok' = ok ∧ fail' = S fail ∧ CREATED_FILES st' = CREATED_FILES st).

Lemma video_mute_file_inv ctx force src ok fail st ok' fail' st' :
  video_mute_file subprocess_run ctx force src (ok, fail) st
  = (Ok (ok', fail'), st') →
  video_mute_outcome ctx src ok fail st ok' fail' st'.
Proof.
  intros H. destruct (OS.exists_ (fs st) src && negb force) eqn:Hguard.
  - apply skip_guard in Hguard as [Hex ->].
    rewrite video_mute_file_skips in H by done. simplify_eq/=. by right.
  - rewrite video_mute_file_settles in H by done. by apply settle_inv.
Qed.

Definition image_convert_outcome ctx format force src ok fail st ok' fail' st'
  : Prop :=
  (ok' = S ok ∧ fail' = fail
   ∧ counted_success ctx
       (image_convert_cmd (ffmpeg ctx) src
          (resolved (fs st) force (converted src format)))
       src (resolved (fs st) force (converted src format)) st st')
  ∨ (ok' = ok ∧ fail' = S fail ∧ CREATED_FILES st' = CREATED_FILES st).

Lemma image_convert_file_inv ctx format force src ok fail st ok' fail' st' :
  image_convert_file subprocess_run ctx format force src (ok, fail) st
  = (Ok (ok', fail'), st') →
  image_convert_outcome ctx format force src ok fail st ok' fail' st'.
Proof.
  intros H. destruct (decide (PathLib.name src = "")) as [Hname|Hname].
  { unfold image_convert_file, with_name, bind in H.
    rewrite bool_decide_true in H by done. done. }
  rewrite image_convert_file_settles in H by done. by apply settle_inv.
Qed.

Definition image_compress_outcome ctx quality force src ok fail st
    ok' fail' st' : Prop :=
  (ok' = S ok ∧ fail' = fail
   ∧ counted_success ctx
       (image_compress_cmd (ffmpeg ctx) quality src
          (resolved (fs st) force src))
       src (resolved (fs st) force src) st st')
  ∨ (ok' = ok ∧ fail' = S fail ∧ CREATED_FILES st' = CREATED_FILES st).

Lemma image_compress_file_inv ctx quality force src ok fail st
    ok' fail' st' :
  image_compress_file subprocess_run ctx quality force src (ok, fail) st
  = (Ok (ok', fail'), st') →
  image_compress_outcome ctx quality force src ok fail st ok' fail' st'.
Proof.
  intros H. rewrite image_compress_file_settles in H.
  by apply try_except_settle_inv in H.
Qed.

(** X3: after an iteration of video mute that counts a success, nothing exists
    at the path of the source, which is also the destination: what the
    encoder left there has been moved into the backup directory, and the
    path is nevertheless recorded in [CREATED_FILES].  The same holds for
    image compress with [--force]. *)
Theorem in_place_output_is_moved_to_backup
    (ctx : Ctx) (quality : Z) (force : bool) (src : Path)
    (ok fail fail' : nat) (st st' : State) :
  PathLib.name src ≠ "" →
  (∀ cmd, after_run ctx cmd st !! src = Some File) →
  (video_mute_file subprocess_run ctx force src (ok, fail) st
   = (Ok (S ok, fail'), st') →
   fs st' !! src = None
   ∧ (∃ target, PathLib.parent target = backup_dir src
                ∧ fs st' !! target = Some File)
   ∧ CREATED_FILES st' = CREATED_FILES st ++ [src])
  ∧ (image_compress_file subprocess_run ctx quality true src (ok, fail) st
     = (Ok (S ok, fail'), st') →
     fs st' !! src = None
     ∧ (∃ target, PathLib.parent target = backup_dir src
                  ∧ fs st' !! target = Some File)
     ∧ CREATED_FILES st' = CREATED_FILES st ++ [src]).
Proof.
  intros Hname Hfile. split; intros H.
  - apply video_mute_file_inv in H as [(_ & _ & Hs)|(Hok & _)]; [|lia].
    by eapply counted_success_moves.
  - apply image_compress_file_inv in H as [(_ & _ & Hs)|(Hok & _)]; [|lia].
    unfold resolved in Hs. rewrite andb_false_r in Hs.
    by eapply counted_success_moves.
Qed.

(** X4: a file that video convert or image convert counts as a success has
    been moved into the backup directory, and its destination is the one
    entry added to [CREATED_FILES]. *)
Theorem converted_source_is_moved_to_backup
    (ctx : Ctx) (format : string) (fast force : bool) (src : Path)
    (ok fail fail' : nat) (st st' : State) :
  PathLib.name src ≠ "" →
  (∀ cmd, after_run ctx cmd st !! src = Some File) →
  (video_convert_file subprocess_run ctx format fast force src (ok, fail) st
   = (Ok (S ok, fail'), st') →
   fs st' !! src = None
   ∧ (∃ target, PathLib.parent target = backup_dir src
                ∧ fs st' !! target = Some File)
   ∧ CREATED_FILES st' = CREATED_FILES st ++ [converted src format])
  ∧ (image_convert_file subprocess_run ctx format force src (ok, fail) st
     = (Ok (S ok, fail'), st') →
     fs st' !! src = None
     ∧ (∃ target, PathLib.parent target = backup_dir src
                  ∧ fs st' !! target = Some File)
     ∧ CREATED_FILES st' = CREATED_FILES st
                           ++ [resolved (fs st) force (converted src format)]).
Proof.
  intros Hname Hfile. split; intros H.
  - apply video_convert_file_inv in H as [(_ & _ & Hs)|(Hok & _)]; [|lia].
    by eapply counted_success_moves.
  - apply image_convert_file_inv in H as [(_ & _ & Hs)|(Hok & _)]; [|lia].
    by eapply counted_success_moves.
Qed.

End Iterations.

(* ================================================================== *)
(** * What a whole command leaves behind *)
(* ================================================================== *)

Section Tracking.

Variable subprocess_run : FS → list string → result CompletedProcess * FS.
Variable glob : FS → string → list string.

(** An iteration that completes counts its file once, and records one
    destination exactly when it counts a success. *)
Definition tracks (body : Path → nat * nat → M (nat * nat)) : Prop :=
  ∀ src ok fail st ok' fail' st',
    body src (ok, fail) st = (Ok (ok', fail'), st') →
    ∃ new, CREATED_FILES st' = CREATED_FILES st ++ new
           ∧ (length new + ok = ok')%nat
           ∧ (ok' + fail' = S (ok + fail))%nat.

Lemma outcome_tracks (P : Prop) ok fail ok' fail' st st' dst :
  (ok' = S ok ∧ fail' = fail
   ∧ (P → CREATED_FILES st' = CREATED_FILES st ++ [dst]) ∧ P)
  ∨ (ok' = ok ∧ fail' = S fail ∧ CREATED_FILES st' = CREATED_FILES st) →
  ∃ new, CREATED_FILES st' = CREATED_FILES st ++ new
         ∧ (length new + ok = ok')%nat
         ∧ (ok' + fail' = S (ok + fail))%nat.
Proof.
  intros [(-> & -> & Hc & HP)|(-> & -> & Hc)].
  - exists [dst]. split; [by apply Hc|]. simpl. lia.
  - exists []. rewrite app_nil_r. split; [done|]. simpl. lia.
Qed.

Lemma counted_success_created ctx cmd src dst st st' :
  counted_success subprocess_run ctx cmd src dst st st' →
  CREATED_FILES st' = CREATED_FILES st ++ [dst].
Proof. by intros (? & ? & ? & _ & _ & _ & _ & ?). Qed.

Lemma video_convert_file_tracks ctx format fast force :
  tracks (video_convert_file subprocess_run ctx format fast force).
Proof.
  intros src ok fail st ok' fail' st' H.
  apply video_convert_file_inv in H.
  eapply (outcome_tracks (counted_success _ _ _ _ _ _ _)).
  destruct H as [(? & ? & Hs)|?]; [left|by right].
  repeat split; try done. apply counted_success_created.
Qed.

Lemma video_mute_file_tracks ctx force :
  tracks (video_mute_file subprocess_run ctx force).
Proof.
  intros src ok fail st ok' fail' st' H.
  apply video_mute_file_inv in H.
  eapply (outcome_tracks (counted_success _ _ _ _ _ _ _)).
  destruct H as [(? & ? & Hs)|?]; [left|by right].
  repeat split; try done. apply counted_success_created.
Qed.

Lemma image_convert_file_tracks ctx format force :
  tracks (image_convert_file subprocess_run ctx format force).
Proof.
  intros src ok fail st ok' fail' st' H.
  apply image_convert_file_inv in H.
  eapply (outcome_tracks (counted_success _ _ _ _ _ _ _)).
  destruct H as [(? & ? & Hs)|?]; [left|by right].
  repeat split; try done. apply counted_success_created.
Qed.

Lemma image_compress_file_tracks ctx quality force :
  tracks (image_compress_file subprocess_run ctx quality force).
Proof.
  intros src ok fail st ok' fail' st' H.
  apply image_compress_file_inv in H.
  eapply (outcome_tracks (counted_success _ _ _ _ _ _ _)).
  destruct H as [(? & ? & Hs)|?]; [left|by right].
  repeat split; try done. apply counted_success_created.
Qed.

Lemma for_each_tracks body (files : list Path) :
  tracks body →
  ∀ ok fail st ok' fail' st',
    for_each files body (ok, fail) st = (Ok (ok', fail'), st') →
    ∃ new, CREATED_FILES st' = CREATED_FILES st ++ new
           ∧ (length new + ok = ok')%nat
           ∧ (ok' + fail' = length files + (ok + fail))%nat.
Proof.
  intros Hbody. induction files as [|src files IH];
    intros ok fail st ok' fail' st' H.
  - monad_unfold. simplify_eq/=. exists []. rewrite app_nil_r.
    split; [done|]. simpl. lia.
  - rewrite for_each_cons in H.
    destruct (body src (ok, fail) st) as [[[ok1 fail1]|e] st1] eqn:Hb;
      [|done].
    apply Hbody in Hb as (new1 & Hc1 & Hn1 & Hsum1).
    apply IH in H as (new2 & Hc2 & Hn2 & Hsum2).
    exists (new1 ++ new2). rewrite Hc2, Hc1, <- (assoc_L (++)).
    split; [done|]. rewrite length_app. simpl. lia.
Qed.

(** The summary of a batch command that completes: the number of successes
    it prints is the number of destinations the run added to
    [CREATED_FILES], and successes and failures add up to the number of
    resolved files. *)
Definition accounted (line : nat → nat → string) (input : list string)
    (st st' : State) : Prop :=
  ∃ (ok fail : nat) (new : list Path),
    last (terminal st') = Some (line ok fail)
    ∧ CREATED_FILES st' = CREATED_FILES st ++ new
    ∧ length new = ok
    ∧ (ok + fail = length (expand_inputs glob (fs st) input))%nat.

Lemma batch_accounted body line exc (input : list string) st st' :
  tracks body →
  (let* files := expand_inputs_M glob input in
   if bool_decide (files = []) then raise exc
   else
     let* (ok, fail) := for_each files body (0%nat, 0%nat) in
     secho (line ok fail)) st = (Ok tt, st') →
  accounted line input st st'.
Proof.
  intros Hbody H. unfold expand_inputs_M, get_fs, bind at 1 2 in H.
  simpl in H. case_bool_decide; [done|].
  unfold bind in H.
  destruct (for_each _ body (0%nat, 0%nat) st)
    as [[[ok fail]|e] st1] eqn:Hloop; [|done].
  apply for_each_tracks in Hloop as (new & Hc & Hn & Hsum); [|done].
  monad_unfold. simplify_eq/=. exists (length new + 0)%nat, fail, new.
  simpl. rewrite last_snoc. repeat split; [done|lia|lia].
Qed.

(** X5: each of the four batch commands that completes is accounted for:
    the success count of its summary is the number of destinations it added
    to [CREATED_FILES], and both counts add up to the number of resolved
    files. *)
Theorem success_count_is_number_of_recorded_destinations
    (ctx : Ctx) (input : list string) (format : string)
    (fast force : bool) (quality : Z) (st st' : State) :
  (video_convert subprocess_run glob ctx input format fast force st
   = (Ok tt, st') → accounted completed_line input st st')
  ∧ (video_mute subprocess_run glob ctx input force st = (Ok tt, st') →
     accounted completed_line input st st')
  ∧ (image_convert subprocess_run glob ctx input format force st
     = (Ok tt, st') → accounted completed_line input st st')
  ∧ (image_compress subprocess_run glob ctx input quality force st
     = (Ok tt, st') → accounted batch_report_line input st st').
Proof.
  split; [|split; [|split]].
  - unfold video_convert. case_bool_decide; [done|].
    apply batch_accounted, video_convert_file_tracks.
  - apply batch_accounted, video_mute_file_tracks.
  - unfold image_convert. case_bool_decide; [done|].
    apply batch_accounted, image_convert_file_tracks.
  - apply batch_accounted, image_compress_file_tracks.
Qed.

End Tracking.

(* ================================================================== *)
(** * What the commands never do *)
(* ================================================================== *)

Section Overwrite.

Variable subprocess_run : FS → list string → result CompletedProcess * FS.

Lemma suggest_path_free (fs : FS) (p : Path) :
  OS.exists_ fs (suggest_path fs p) = false.
Proof.
  unfold suggest_path.
  destruct (suggest_path_loop_spec fs (PathLib.parent p) (PathLib.stem p)
              (PathLib.suffix p) (size fs) 1 (dom fs))
    as (k & _ & -> & Hfree & _); [| |done].
  - intros ???. by apply exists_dom.
  - by rewrite size_dom.
Qed.

Lemma resolved_free (fs : FS) (dst : Path) :
  OS.exists_ fs (resolved fs false dst) = false.
Proof.
  unfold resolved. destruct (OS.exists_ fs dst) eqn:Hex; simpl; [|done].
  apply suggest_path_free.
Qed.

(** Between [st] and [st'] either [run_ffmpeg] was not called, or it was
    called with the command [cmd dst] for a destination that did not
    exist. *)
Definition spares_existing (cmd : Path → list string) (st st' : State)
  : Prop :=
  log st' = log st
  ∨ ∃ dst, OS.exists_ (fs st) dst = false ∧ invoked (cmd dst) st st'.

(** X6: without [--force] no operation hands the encoder a destination that
    exists: video convert and video mute skip the file, the other four
    operations choose a free name.  The quality of image compress is taken
    in its range, 0 to 100. *)
Theorem no_existing_destination_without_force
    (ctx : Ctx) (format : string) (fast : bool) (quality : Z)
    (input : string) (src : Path) (ok fail : nat) (st : State) :
  0 ≤ quality ≤ 100 →
  (∃ r st',
     video_convert_file subprocess_run ctx format fast false src (ok, fail) st
     = (r, st')
     ∧ spares_existing (video_convert_cmd (ffmpeg ctx) fast src) st st')
  ∧ (∃ r st',
       video_mute_file subprocess_run ctx false src (ok, fail) st = (r, st')
       ∧ spares_existing (video_mute_cmd (ffmpeg ctx) src) st st')
  ∧ (∃ r st',
       image_convert_file subprocess_run ctx format false src (ok, fail) st
       = (r, st')
       ∧ spares_existing (image_convert_cmd (ffmpeg ctx) src) st st')
  ∧ (∃ r st',
       image_compress_file subprocess_run ctx quality false src (ok, fail) st
       = (r, st')
       ∧ spares_existing (image_compress_cmd (ffmpeg ctx) quality src)
           st st')
  ∧ (∃ r st',
       audio_extract subprocess_run ctx input false st = (r, st')
       ∧ spares_existing
           (audio_extract_cmd (ffmpeg ctx) (PathLib.of_str input)) st st')
  ∧ (∃ r st',
       audio_convert subprocess_run ctx input format false st = (r, st')
       ∧ spares_existing
           (audio_convert_cmd (ffmpeg ctx) (PathLib.of_str input)) st st').
Proof.
  intros Hquality. split; [|split; [|split; [|split; [|split]]]].
  - destruct (decide (PathLib.name src = "")) as [Hname|Hname].
    { unfold video_convert_file, with_name, bind.
      rewrite bool_decide_true by done. eexists _, _. split; [done|].
      by left. }
    destruct (OS.exists_ (fs st) (converted src format)) eqn:Hex.
    + rewrite video_convert_file_skips by done.
      eexists _, _. split; [done|]. by left.
    + rewrite video_convert_file_settles by (by rewrite ?Hex).
      destruct (settle _ _ _ _ _ _ _ st) as [r st'] eqn:Hs.
      exists r, st'. split; [done|]. right.
      exists (converted src format). split; [done|].
      by eapply settle_invoked.
  - destruct (OS.exists_ (fs st) src) eqn:Hex.
    + rewrite video_mute_file_skips by done.
      eexists _, _. split; [done|]. by left.
    + rewrite video_mute_file_settles by (by rewrite ?Hex).
      destruct (settle _ _ _ _ _ _ _ st) as [r st'] eqn:Hs.
      exists r, st'. split; [done|]. right.
      exists src. split; [done|]. by eapply settle_invoked.
  - destruct (decide (PathLib.name src = "")) as [Hname|Hname].
    { unfold image_convert_file, with_name, bind.
      rewrite bool_decide_true by done. eexists _, _. split; [done|].
      by left. }
    rewrite image_convert_file_settles by done.
    destruct (settle _ _ _ _ _ _ _ st) as [r st'] eqn:Hs.
    exists r, st'. split; [done|]. right.
    eexists. split; [apply resolved_free|]. by eapply settle_invoked.
  - rewrite image_compress_file_settles.
    destruct (try_except _ _ st) as [r st'] eqn:Hs.
    exists r, st'. split; [done|]. right.
    eexists. split; [apply resolved_free|].
    by eapply try_except_settle_invoked.
  - destruct (OS.exists_ (fs st) (PathLib.of_str input)) eqn:Hex;
      [destruct (decide (PathLib.name (PathLib.of_str input) = ""))
         as [Hname|Hname]|].
    + unfold audio_extract, bind, OS.path_exists, with_suffix.
      rewrite Hex. simpl. rewrite bool_decide_true by done.
      eexists _, _. split; [done|]. by left.
    + rewrite audio_extract_settles by done.
      destruct (settle_single _ _ _ _ _ _ st) as [r st'] eqn:Hs.
      exists r, st'. split; [done|]. right.
      eexists. split; [apply resolved_free|].
      by eapply settle_single_invoked.
    + unfold audio_extract, bind, OS.path_exists. rewrite Hex.
      eexists _, _. split; [done|]. by left.
  - destruct (decide (Str.lower format ∈ AUDIO_FORMATS)) as [Hfmt|Hfmt];
      [destruct (OS.exists_ (fs st) (PathLib.of_str input)) eqn:Hex;
       [destruct (decide (PathLib.name (PathLib.of_str input) = ""))
          as [Hname|Hname]|]|].
    + unfold audio_convert. rewrite bool_decide_false by (by intros ?).
      unfold bind, OS.path_exists, with_name.
      rewrite Hex. simpl. rewrite bool_decide_true by done.
      eexists _, _. split; [done|]. by left.
    + rewrite audio_convert_settles by done.
      destruct (settle_single _ _ _ _ _ _ st) as [r st'] eqn:Hs.
      exists r, st'. split; [done|]. right.
      eexists. split; [apply resolved_free|].
      by eapply settle_single_invoked.
    + unfold audio_convert. rewrite bool_decide_false by (by intros ?).
      unfold bind, OS.path_exists. rewrite Hex.
      eexists _, _. split; [done|]. by left.
    + unfold audio_convert. rewrite bool_decide_true by done.
      eexists _, _. split; [done|]. by left.
Qed.

End Overwrite.

Section Preview.

Implicit Types run : FS → list string → result CompletedProcess * FS.

Lemma for_each_ext {A B} (xs : list A) (body1 body2 : A → B → M B) :
  (∀ x acc st, body1 x acc st = body2 x acc st) →
  ∀ acc st, for_each xs body1 acc st = for_each xs body2 acc st.
Proof.
  intros Hbody. induction xs as [|x xs IH]; intros acc st; [done|].
  rewrite !for_each_cons, Hbody.
  destruct (body2 x acc st) as [[acc'|e] st']; [apply IH|done].
Qed.

Lemma settle_preview run1 run2 ctx cmd src dst ok fail st :
  dry_run ctx = true →
  settle run1 ctx cmd src dst ok fail st
  = settle run2 ctx cmd src dst ok fail st.
Proof.
  intros Hdry. unfold settle, bind. by rewrite Hdry, !run_ffmpeg_preview.
Qed.

Lemma settle_single_preview run1 run2 ctx cmd src dst line st :
  dry_run ctx = true →
  settle_single run1 ctx cmd src dst line st
  = settle_single run2 ctx cmd src dst line st.
Proof.
  intros Hdry. unfold settle_single, bind.
  by rewrite Hdry, !run_ffmpeg_preview.
Qed.

Lemma video_convert_file_preview run1 run2 ctx format fast force src tally st :
  dry_run ctx = true →
  video_convert_file run1 ctx format fast force src tally st
  = video_convert_file run2 ctx format fast force src tally st.
Proof.
  intros Hdry. destruct tally as [ok fail].
  destruct (decide (PathLib.name src = "")) as [Hname|Hname].
  { unfold video_convert_file, with_name, bind.
    by rewrite bool_decide_true by done. }
  destruct (OS.exists_ (fs st) (converted src format) && negb force)
    eqn:Hguard.
  - apply skip_guard in Hguard as [Hex ->].
    by rewrite !video_convert_file_skips.
  - rewrite !video_convert_file_settles by done. by apply settle_preview.
Qed.

Lemma video_mute_file_preview run1 run2 ctx force src tally st :
  dry_run ctx = true →
  video_mute_file run1 ctx force src tally st
  = video_mute_file run2 ctx force src tally st.
Proof.
  intros Hdry. destruct tally as [ok fail].
  destruct (OS.exists_ (fs st) src && negb force) eqn:Hguard.
  - apply skip_guard in Hguard as [Hex ->].
    by rewrite !video_mute_file_skips.
  - rewrite !video_mute_file_settles by done. by apply settle_preview.
Qed.

Lemma image_convert_file_preview run1 run2 ctx format force src tally st :
  dry_run ctx = true →
  image_convert_file run1 ctx format force src tally st
  = image_convert_file run2 ctx format force src tally st.
Proof.
  intros Hdry. destruct tally as [ok fail].
  destruct (decide (PathLib.name src = "")) as [Hname|Hname].
  { unfold image_convert_file, with_name, bind.
    by rewrite bool_decide_true by done. }
  rewrite !image_convert_file_settles by done. by apply settle_preview.
Qed.

Lemma image_compress_file_preview run1 run2 ctx quality force src tally st :
  dry_run ctx = true →
  image_compress_file run1 ctx quality force src tally st
  = image_compress_file run2 ctx quality force src tally st.
Proof.
  intros Hdry. destruct tally as [ok fail].
  rewrite !image_compress_file_settles. unfold try_except.
  by rewrite (settle_preview run1 run2).
Qed.

Lemma batch_ext {A : Type} (glob : FS → string → list string) (exc : exn)
    (body1 body2 : Path → nat * nat → M (nat * nat))
    (finish : nat * nat → M A) (input : list string) (st : State) :
  (∀ src tally st, body1 src tally st = body2 src tally st) →
  (let* files := expand_inputs_M glob input in
   if bool_decide (files = []) then raise exc
   else let* tally := for_each files body1 (0%nat, 0%nat) in finish tally) st
  = (let* files := expand_inputs_M glob input in
     if bool_decide (files = []) then raise exc
     else let* tally := for_each files body2 (0%nat, 0%nat) in finish tally)
      st.
Proof.
  intros Hbody. unfold expand_inputs_M, get_fs, bind at 1 2 4 5. simpl.
  case_bool_decide; [done|]. unfold bind.
  by rewrite (for_each_ext _ body1 body2).
Qed.

(** X7: in preview mode the encoder is never started: every command has the
    same result and leaves the same state whatever the external process
    would do. *)
Theorem preview_never_starts_the_encoder
    run1 run2 (glob : FS → string → list string)
    (ctx : Ctx) (inputs : list string) (input format : string)
    (fast force : bool) (quality : Z) (st : State) :
  dry_run ctx = true →
  video_convert run1 glob ctx inputs format fast force st
  = video_convert run2 glob ctx inputs format fast force st
  ∧ video_mute run1 glob ctx inputs force st
    = video_mute run2 glob ctx inputs force st
  ∧ image_convert run1 glob ctx inputs format force st
    = image_convert run2 glob ctx inputs format force st
  ∧ image_compress run1 glob ctx inputs quality force st
    = image_compress run2 glob ctx inputs quality force st
  ∧ audio_extract run1 ctx input force st
    = audio_extract run2 ctx input force st
  ∧ audio_convert run1 ctx input format force st
    = audio_convert run2 ctx input format force st.
Proof.
  intros Hdry. split; [|split; [|split; [|split; [|split]]]].
  - unfold video_convert. case_bool_decide; [done|].
    apply (batch_ext glob _ _ _ (λ '(ok, fail), secho (completed_line ok fail))).
    intros. by apply video_convert_file_preview.
  - apply (batch_ext glob _ _ _ (λ '(ok, fail), secho (completed_line ok fail))).
    intros. by apply video_mute_file_preview.
  - unfold image_convert. case_bool_decide; [done|].
    apply (batch_ext glob _ _ _ (λ '(ok, fail), secho (completed_line ok fail))).
    intros. by apply image_convert_file_preview.
  - apply (batch_ext glob _ _ _
             (λ '(ok, fail), secho (batch_report_line ok fail))).
    intros. by apply image_compress_file_preview.
  - destruct (OS.exists_ (fs st) (PathLib.of_str input)) eqn:Hex;
      [destruct (decide (PathLib.name (PathLib.of_str input) = ""))
         as [Hname|Hname]|].
    + unfold audio_extract, bind, OS.path_exists, with_suffix.
      rewrite Hex. simpl. by rewrite bool_decide_true by done.
    + rewrite !audio_extract_settles by done. by apply settle_single_preview.
    + unfold audio_extract, bind, OS.path_exists. by rewrite Hex.
  - destruct (decide (Str.lower format ∈ AUDIO_FORMATS)) as [Hfmt|Hfmt];
      [destruct (OS.exists_ (fs st) (PathLib.of_str input)) eqn:Hex;
       [destruct (decide (PathLib.name (PathLib.of_str input) = ""))
          as [Hname|Hname]|]|].
    + unfold audio_convert. rewrite !bool_decide_false by (by intros ?).
      unfold bind, OS.path_exists, with_name.
      rewrite Hex. simpl. by rewrite bool_decide_true by done.
    + rewrite !audio_convert_settles by done.
      by apply settle_single_preview.
    + unfold audio_convert. rewrite !bool_decide_false by (by intros ?).
      unfold bind, OS.path_exists. by rewrite Hex.
    + unfold audio_convert. by rewrite !bool_decide_true by done.
Qed.

End Preview.

(* ================================================================== *)
(** * More on resolving inputs *)
(* ================================================================== *)

Section Inputs.

Variable glob : FS → string → list string.

Lemma dict_fromkeys_elem (keys : list Path) (x : Path) :
  x ∈ dict_fromkeys keys ↔ x ∈ keys.
Proof.
  rewrite dict_fromkeys_first_occurrences, first_occurrences_elem.
  split; [by intros [_ ?]|]. intros ?. split; [apply not_elem_of_nil|done].
Qed.

Lemma foldl_dict_insert_known (d keys : list Path) :
  (∀ k, k ∈ keys → k ∈ d) → foldl dict_insert d keys = d.
Proof.
  induction keys as [|k keys IH]; intros Hin; [done|]. simpl.
  unfold dict_insert at 2. rewrite bool_decide_true by (apply Hin; left).
  apply IH. intros k' Hk'. apply Hin. by right.
Qed.

Lemma dict_fromkeys_app_known (keys more : list Path) :
  (∀ k, k ∈ more → k ∈ keys) →
  dict_fromkeys (keys ++ more) = dict_fromkeys keys.
Proof.
  intros Hin. unfold dict_fromkeys. rewrite foldl_app.
  apply foldl_dict_insert_known. intros k Hk.
  apply dict_fromkeys_elem. by apply Hin.
Qed.

(** X8: naming a pattern again, anywhere after its first mention, changes
    nothing: the files are resolved once, at the place of the first
    mention. *)
Theorem expand_inputs_repeated_patterns
    (fs : FS) (inputs again : list string) :
  (∀ item, item ∈ again → item ∈ inputs) →
  expand_inputs glob fs (inputs ++ again) = expand_inputs glob fs inputs.
Proof.
  intros Hagain. unfold expand_inputs.
  rewrite !expand_results_concat, fmap_app, join_app, fmap_app.
  apply dict_fromkeys_app_known.
  intros k (s & -> & Hs)%list_elem_of_fmap.
  apply list_elem_of_join in Hs as (l & Hs & Hl).
  apply list_elem_of_fmap in Hl as (item & -> & Hitem).
  apply list_elem_of_fmap. exists s. split; [done|].
  apply list_elem_of_join. exists (expand_item glob fs item).
  split; [done|]. apply list_elem_of_fmap. eauto.
Qed.

End Inputs.

(* ================================================================== *)
(** * Start-up: locating and checking the encoder *)
(* ================================================================== *)

Module Startup.

(** What [resolve_ffmpeg] reads from the interpreter: [os.name], the
    attribute [sys._MEIPASS] when the program runs from a bundle, and
    [__file__]. *)
Record Env := {
  os_name : string;
  MEIPASS : option string;
  module_file : string;
}.

Definition resolve_ffmpeg (env : Env) : Path :=
  let ext := if bool_decide (os_name env = "nt") then ".exe" else "" in
  match MEIPASS env with
  | Some bundle => PathLib.join (PathLib.of_str bundle) ("ffmpeg" +:+ ext)
  | None =>
      PathLib.join
        (PathLib.join (PathLib.parent (PathLib.of_str (module_file env)))
           "bin")
        ("ffmpeg" +:+ ext)
  end.

(** The line feed. *)
Definition nl : string := String (Ascii.ascii_of_nat 10) "".

(** The characters [str.strip()] removes, among the ASCII ones. *)
Definition is_whitespace (c : Ascii.ascii) : bool :=
  let n := Ascii.nat_of_ascii c in
  ((9 <=? n) && (n <=? 13) || (28 <=? n) && (n <=? 32))%nat.

Fixpoint lstrip (s : string) : string :=
  match s with
  | String c s' => if is_whitespace c then lstrip s' else s
  | EmptyString => EmptyString
  end.

(** [s.strip()] *)
Definition strip (s : string) : string :=
  String.rev (lstrip (String.rev (lstrip s))).

(** [logging.DEBUG], [logging.WARNING], [logging.ERROR] *)
Definition levelno (l : log_level) : nat :=
  match l with
  | DEBUG => 10
  | ERROR => 40
  end.

(** [setup_logging]: the level given to [logging.basicConfig]. *)
Definition setup_logging (verbose : bool) : nat :=
  if verbose then 10%nat else 30%nat.

(** The records the handler configured at [level] writes to the log
    file. *)
Definition log_file (level : nat) (records : list log_record)
  : list log_record :=
  filter (λ r, (level ≤ levelno (log_lvl r))%nat) records.

Definition APP_VERSION : string := "1.1.0".

(** [f"avicore v{APP_VERSION}"] *)
Definition version : M unit := secho ("avicore v" +:+ APP_VERSION).

(** [f.unlink()] *)
Definition unlink (p : Path) : M unit :=
  let* fs := get_fs in
  match fs !! p with
  | Some File => OS.set_fs (delete p fs)
  | Some Dir => raise (Exn OSError "Is a directory")
  | None => raise (Exn FileNotFoundError "No such file or directory")
  end.

(** The body of the loop of the interrupt handler. *)
Definition cleanup_file (f : Path) : M unit :=
  try_except
    (let* present := OS.path_exists f in
     if present then unlink f else mret tt)
    (λ exc, logging_exception "Cleanup failed" exc).

(** The handler [register_cleanup] installs for [SIGINT] and [SIGTERM];
    its value is the status given to [sys.exit]. *)
(** [for f in CREATED_FILES: ...] *)
Definition cleanup_created : M unit :=
  λ st, for_each (CREATED_FILES st) (λ f _, cleanup_file f) tt st.

Definition _handler : M Z :=
  secho (nl +:+ "Interrupted. Cleaning up partial outputs…") ;;
  cleanup_created ;;
  mret 130.

Section Verify.

Variable subprocess_run : FS → list string → result CompletedProcess * FS.

(** [p.resolve()]: the absolute path, which depends on the working
    directory. *)
Variable resolve : Path → Path.

Definition not_found (ffmpeg : Path) : exn :=
  Exn ClickException
    ("FFmpeg not found." +:+ nl +:+ "Expected location: "
     +:+ PathLib.str (resolve ffmpeg)).

Definition diagnostic_failed (ffmpeg : Path) (reason : string) : exn :=
  Exn ClickException
    ("FFmpeg self-diagnostic failed." +:+ nl
     +:+ "Binary path: " +:+ PathLib.str (resolve ffmpeg) +:+ nl
     +:+ "Reason: " +:+ reason).

(** [verify_ffmpeg].  Inside the [try], a non-zero status raises a
    [RuntimeError] whose text is the stripped error output; that exception
    and any exception of [subprocess.run] are caught by the same
    [except Exception as exc], which reads only [str(exc)]. *)
Definition verify_ffmpeg (ffmpeg : Path) : M unit :=
  let* present := OS.path_exists ffmpeg in
  if negb present then raise (not_found ffmpeg)
  else
    λ st,
      match subprocess_run_M subprocess_run
              [PathLib.str ffmpeg; "-version"] st with
      | (Ok result, st') =>
          if bool_decide (returncode result ≠ 0) then
            raise (diagnostic_failed ffmpeg (strip (stderr result))) st'
          else (Ok tt, st')
      | (Raise exc, st') =>
          raise (diagnostic_failed ffmpeg (exn_msg exc)) st'
      end.

(** [cli]: the callback of the command group.  [setup_logging] and
    [register_cleanup] configure the logger and the signal handlers; the log
    file that [setup_logging] opens in the working directory is not an entry
    of the file system of the state. *)
Definition cli (env : Env) (verbose dry_run : bool) : M Ctx :=
  let ffmpeg := resolve_ffmpeg env in
  verify_ffmpeg ffmpeg ;;
  mret {| ffmpeg := ffmpeg; verbose := verbose; dry_run := dry_run |}.

(** A command line: click runs the callback of the group, then the
    subcommand with the [ctx.obj] the callback has set. *)
Definition invoke (env : Env) (verbose dry_run : bool)
    (command : Ctx → M unit) : M unit :=
  let* ctx := cli env verbose dry_run in
  command ctx.

End Verify.

End Startup.

(* ================================================================== *)
(** * Facts about start-up and cleanup *)
(* ================================================================== *)

Section StartupFacts.

Import Startup.

Variable subprocess_run : FS → list string → result CompletedProcess * FS.
Variable resolve : Path → Path.

(** X9: [verify_ffmpeg] returns normally exactly when the binary exists and its
    [-version] run could be started and exited with status 0.  A missing
    binary is reported without starting anything; every failure is a
    [ClickException]; nothing but the file system (through the process) is
    touched. *)
Theorem verify_ffmpeg_outcome (ffmpeg : Path) (st : State) :
  ∃ r st',
    verify_ffmpeg subprocess_run resolve ffmpeg st = (r, st')
    ∧ same_but_fs st st'
    ∧ (∀ e, r = Raise e → exn_cls e = ClickException)
    ∧ (if OS.exists_ (fs st) ffmpeg then
         fs st' = (subprocess_run (fs st) [PathLib.str ffmpeg; "-version"]).2
         ∧ (r = Ok tt
            ↔ ¬ process_failed
                  (subprocess_run (fs st)
                     [PathLib.str ffmpeg; "-version"]).1)
       else st' = st ∧ r = Raise (not_found resolve ffmpeg)).
Proof.
  unfold verify_ffmpeg, bind, OS.path_exists.
  destruct (OS.exists_ (fs st) ffmpeg) eqn:Hex; simpl.
  - unfold subprocess_run_M.
    destruct (subprocess_run (fs st) [PathLib.str ffmpeg; "-version"])
      as [[p|exc] fs'] eqn:Hrun; simpl.
    + case_bool_decide as Hrc; monad_unfold.
      * eexists _, _. split; [done|]. split; [done|].
        split; [by intros e [= <-]|]. split; [done|]. split; [done|].
        intros Hnot. by destruct Hnot.
      * eexists _, _. split; [done|]. split; [done|].
        split; [done|]. split; [done|]. split; [tauto|done].
    + monad_unfold. eexists _, _. split; [done|]. split; [done|].
      split; [by intros e [= <-]|]. split; [done|]. split; [done|].
      intros Hnot. by destruct Hnot.
  - eexists _, _. split; [done|]. split; [done|].
    split; [by intros e [= <-]|]. done.
Qed.

(** X10: without a working encoder no subcommand runs, not even one that does
    not use it: the group callback raises first, and the subcommand has
    printed and recorded nothing. *)
Theorem no_command_without_working_encoder
    (env : Env) (verbose dry : bool) (command : Ctx → M unit) (st : State) :
  OS.exists_ (fs st) (resolve_ffmpeg env) = false
  ∨ process_failed
      (subprocess_run (fs st)
         [PathLib.str (resolve_ffmpeg env); "-version"]).1 →
  ∃ e st',
    invoke subprocess_run resolve env verbose dry command st = (Raise e, st')
    ∧ exn_cls e = ClickException
    ∧ same_but_fs st st'.
Proof.
  intros Hbad. unfold invoke, cli, mbind, M_bind, bind.
  destruct (verify_ffmpeg_outcome (resolve_ffmpeg env) st)
    as (r & st' & -> & Hframe & Hcls & Hcase).
  destruct r as [[]|e].
  - exfalso. destruct (OS.exists_ (fs st) (resolve_ffmpeg env)).
    + destruct Hbad as [?|Hfail]; [done|].
      destruct Hcase as [_ [Hok _]]. by apply Hok.
    + by destruct Hcase as [_ ?].
  - exists e, st'. split; [done|]. split; [by apply Hcls|done].
Qed.

End StartupFacts.

Section CleanupFacts.

Import Startup.

(** The record [logging.exception] writes when a listed path is a
    directory. *)
Definition cleanup_failed : log_record :=
  LogRecord ERROR "Cleanup failed" (Some (Exn OSError "Is a directory")).

Lemma cleanup_file_file (f : Path) (st : State) :
  fs st !! f = Some File →
  cleanup_file f st
  = (Ok tt, mkState (delete f (fs st)) (CREATED_FILES st) (terminal st)
              (log st)).
Proof.
  intros Hf. unfold cleanup_file, unlink, OS.path_exists, OS.exists_, get_fs,
    OS.set_fs.
  monad_unfold.
  rewrite bool_decide_true by (by rewrite Hf). simpl. by rewrite Hf.
Qed.

Lemma cleanup_file_dir (f : Path) (st : State) :
  fs st !! f = Some Dir →
  cleanup_file f st
  = (Ok tt, mkState (fs st) (CREATED_FILES st) (terminal st)
              (log st ++ [cleanup_failed])).
Proof.
  intros Hf. unfold cleanup_file, unlink, OS.path_exists, OS.exists_, get_fs,
    OS.set_fs.
  monad_unfold.
  rewrite bool_decide_true by (by rewrite Hf). simpl. by rewrite Hf.
Qed.

Lemma cleanup_file_missing (f : Path) (st : State) :
  fs st !! f = None → cleanup_file f st = (Ok tt, st).
Proof.
  intros Hf. unfold cleanup_file, OS.path_exists, OS.exists_.
  monad_unfold.
  rewrite bool_decide_false by (rewrite Hf; by intros [? ?]). done.
Qed.

(** What is left at [p] once the regular files among [files] are gone. *)
Definition swept (files : list Path) (fs : FS) (p : Path) : option node :=
  match fs !! p with
  | Some File => if bool_decide (p ∈ files) then None else Some File
  | other => other
  end.

Definition is_dir (fs : FS) (p : Path) : bool :=
  match fs !! p with
  | Some Dir => true
  | _ => false
  end.

Lemma swept_cons_file (f : Path) (files : list Path) (fs : FS) (p : Path) :
  fs !! f = Some File →
  swept files (delete f fs) p = swept (f :: files) fs p.
Proof.
  intros Hf. unfold swept. destruct (decide (p = f)) as [->|Hne].
  - rewrite lookup_delete_eq, Hf. by rewrite bool_decide_true by left.
  - rewrite lookup_delete_ne by done.
    destruct (fs !! p) as [[]|]; [|done..].
    rewrite (bool_decide_ext (p ∈ files) (p ∈ f :: files)); [done|].
    rewrite elem_of_cons. tauto.
Qed.

Lemma swept_cons_other (f : Path) (files : list Path) (fs : FS) (p : Path) :
  fs !! f ≠ Some File →
  swept files fs p = swept (f :: files) fs p.
Proof.
  intros Hf. unfold swept. destruct (fs !! p) as [[]|] eqn:Hp; [|done..].
  rewrite (bool_decide_ext (p ∈ files) (p ∈ f :: files)); [done|].
  rewrite elem_of_cons.
  split; [tauto|]. intros [->|?]; [done|tauto].
Qed.

Lemma is_dir_delete_file (f : Path) (fs : FS) (p : Path) :
  fs !! f = Some File → is_dir (delete f fs) p = is_dir fs p.
Proof.
  intros Hf. unfold is_dir. destruct (decide (p = f)) as [->|Hne].
  - by rewrite lookup_delete_eq, Hf.
  - by rewrite lookup_delete_ne.
Qed.

Lemma is_dir_spec (fs : FS) (p : Path) : is_dir fs p ↔ fs !! p = Some Dir.
Proof.
  unfold is_dir. destruct (fs !! p) as [[]|]; simpl; split; try done;
    by intros [].
Qed.

Lemma cleanup_loop (files : list Path) :
  ∀ st, ∃ st',
    for_each files (λ f _, cleanup_file f) tt st = (Ok tt, st')
    ∧ (∀ p, fs st' !! p = swept files (fs st) p)
    ∧ CREATED_FILES st' = CREATED_FILES st
    ∧ terminal st' = terminal st
    ∧ log st'
      = log st
        ++ ((λ _, cleanup_failed) <$> filter (λ p, is_dir (fs st) p) files).
Proof.
  induction files as [|f files IH]; intros st.
  - exists st. split; [done|]. split; [|by rewrite app_nil_r].
    intros p. unfold swept. by destruct (fs st !! p) as [[]|].
  - rewrite for_each_cons.
    destruct (fs st !! f) as [[]|] eqn:Hf.
    + rewrite cleanup_file_file by done.
      destruct (IH (mkState (delete f (fs st)) (CREATED_FILES st)
                      (terminal st) (log st)))
        as (st' & -> & Hfs & Hc & Ht & Hl).
      exists st'. simpl in *. split; [done|]. split; [|split; [done|]].
      * intros p. rewrite Hfs. by apply swept_cons_file.
      * split; [done|]. rewrite Hl. f_equal.
        rewrite filter_cons_False by (rewrite is_dir_spec, Hf; discriminate).
        f_equal. apply list_filter_iff. intros p.
        by rewrite is_dir_delete_file.
    + rewrite cleanup_file_dir by done.
      destruct (IH (mkState (fs st) (CREATED_FILES st) (terminal st)
                      (log st ++ [cleanup_failed])))
        as (st' & -> & Hfs & Hc & Ht & Hl).
      exists st'. simpl in *. split; [done|]. split; [|split; [done|]].
      * intros p. rewrite Hfs. apply swept_cons_other. by rewrite Hf.
      * split; [done|]. rewrite Hl.
        rewrite filter_cons_True by (by rewrite is_dir_spec).
        by rewrite fmap_cons, <- (assoc_L (++)).
    + rewrite cleanup_file_missing by done.
      destruct (IH st) as (st' & -> & Hfs & Hc & Ht & Hl).
      exists st'. split; [done|]. split; [|split; [done|]].
      * intros p. rewrite Hfs. apply swept_cons_other. by rewrite Hf.
      * split; [done|]. rewrite Hl.
        by rewrite filter_cons_False by (rewrite is_dir_spec, Hf; discriminate).
Qed.

(** X11: the interrupt handler never raises and ends the process with status
    130.  It removes exactly the regular files listed in [CREATED_FILES]:
    every other entry, the backup directory and the originals in it
    included, is as before, and nothing is restored.  A listed path that is
    a directory stays, with one [Cleanup failed] record per mention. *)
Theorem handler_removes_recorded_files (st : State) :
  ∃ st',
    _handler st = (Ok 130, st')
    ∧ (∀ p, fs st' !! p = swept (CREATED_FILES st) (fs st) p)
    ∧ CREATED_FILES st' = CREATED_FILES st
    ∧ terminal st'
      = terminal st ++ [nl +:+ "Interrupted. Cleaning up partial outputs…"]
    ∧ log st'
      = log st
        ++ ((λ _, cleanup_failed)
              <$> filter (λ p, is_dir (fs st) p) (CREATED_FILES st)).
Proof.
  unfold _handler, cleanup_created. monad_unfold.
  destruct (cleanup_loop (CREATED_FILES st)
              (mkState (fs st) (CREATED_FILES st)
                 (terminal st
                  ++ [nl +:+ "Interrupted. Cleaning up partial outputs…"])
                 (log st)))
    as (st' & Hloop & Hfs & Hc & Ht & Hl).
  simpl in *. rewrite Hloop. by exists st'.
Qed.

End CleanupFacts.

Section LogFile.

Import Startup.

Variable subprocess_run : FS → list string → result CompletedProcess * FS.

Lemma log_file_app (level : nat) (l1 l2 : list log_record) :
  log_file level (l1 ++ l2) = log_file level l1 ++ log_file level l2.
Proof. apply filter_app. Qed.

(** X12: what [run_ffmpeg] adds to the log file.  The command line is written
    with [--verbose] only.  A failed run writes one record of level ERROR
    whether [--verbose] is given or not, so the line [See avicore.log for
    details] always has its details; a run that succeeds, and a preview,
    write nothing else. *)
Theorem run_ffmpeg_log_file
    (verbose : bool) (cmd : list string) (dry : bool) (st : State) :
  ∃ (b : bool) (st' : State) (err : log_record),
    run_ffmpeg subprocess_run cmd dry st = (Ok b, st')
    ∧ log_lvl err = ERROR
    ∧ log_file (setup_logging verbose) (log st')
      = log_file (setup_logging verbose) (log st)
        ++ (if verbose then [debug_record cmd] else [])
        ++ (if b then [] else [err]).
Proof.
  assert (log_file (setup_logging verbose) [debug_record cmd]
          = if verbose then [debug_record cmd] else []) as Hdebug
    by (by destruct verbose).
  assert (∀ err, log_lvl err = ERROR →
            log_file (setup_logging verbose) [err] = [err]) as Herr.
  { intros [[] msg exc] Hlvl; [done|]. by destruct verbose. }
  destruct dry.
  - rewrite run_ffmpeg_preview. eexists _, _, (LogRecord ERROR "" None).
    split; [done|]. split; [done|]. simpl.
    by rewrite log_file_app, Hdebug, app_nil_r.
  - destruct (subprocess_run (fs st) cmd) as [[r|exc] fs'] eqn:Hrun.
    + destruct (decide (returncode r = 0)) as [Hrc|Hrc].
      * rewrite (run_ffmpeg_exit_zero _ _ _ _ _ Hrun Hrc).
        eexists _, _, (LogRecord ERROR "" None). split; [done|]. split; [done|]. simpl.
        by rewrite log_file_app, Hdebug, app_nil_r.
      * rewrite (run_ffmpeg_exit_nonzero _ _ _ _ _ Hrun Hrc).
        eexists _, _, _. split; [done|]. split; [|simpl].
      2:{ rewrite log_file_app.
          match goal with
          | |- context [log_file _ [?a; ?b]] =>
              change [a; b] with ([a] ++ [b])
          end.
          by rewrite log_file_app, Hdebug, Herr by done. }
        done.
    + rewrite (run_ffmpeg_not_started _ _ _ _ _ Hrun).
      eexists _, _, _. split; [done|]. split; [|simpl].
      2:{ rewrite log_file_app.
          match goal with
          | |- context [log_file _ [?a; ?b]] =>
              change [a; b] with ([a] ++ [b])
          end.
          by rewrite log_file_app, Hdebug, Herr by done. }
      done.
Qed.

End LogFile.

(* ================================================================== *)
(** * An interrupted preview *)
(* ================================================================== *)

Section InterruptedPreview.

Import Startup.

Variable subprocess_run : FS → list string → result CompletedProcess * FS.

Lemma parent_length (p : Path) :
  (length (PathLib.parent p) ≤ length p)%nat.
Proof.
  unfold PathLib.parent. case_bool_decide; [done|].
  rewrite removelast_firstn_len, length_take. lia.
Qed.

(** In preview mode an iteration that counts a success has left every
    other regular file beside the source in place. *)
Lemma counted_success_keeps ctx cmd src dst st st' (p : Path) :
  dry_run ctx = true →
  PathLib.name src ≠ "" →
  fs st !! src = Some File →
  fs st !! p = Some File →
  length p = length src → p ≠ src →
  counted_success subprocess_run ctx cmd src dst st st' →
  fs st' !! p = Some File.
Proof.
  intros Hdry Hname Hsrc Hp Hlen Hne
    (st1 & target & st2 & _ & Hfs & Hb & Hfs' & _).
  unfold after_run in Hfs. rewrite Hdry in Hfs.
  rewrite <- Hfs in Hsrc, Hp.
  destruct (backup_original_moves_source _ _ _ _ Hname Hsrc Hb)
    as (Hfree & Hpar & _ & _ & Hnofile & _ & Hother & _).
  assert (length src = length (backup_dir src)) as Hsame.
  { rewrite backup_dir_eq, length_app.
    rewrite (named_path src Hname) at 1. by rewrite length_app. }
  pose proof (parent_length target) as Hle. rewrite Hpar in Hle.
  rewrite Hfs', Hother; [done| | |].
  - intros [r Hr]. apply Hne. rewrite Hr.
    apply (f_equal length) in Hr. rewrite length_app in Hr.
    destruct r; [by rewrite app_nil_r|]. simpl in Hr. lia.
  - intros [r Hr]. assert (r = []) as ->.
    { apply (f_equal length) in Hr. rewrite length_app in Hr.
      destruct r; [done|]. simpl in Hr. lia. }
    rewrite app_nil_r in Hr. congruence.
  - intros ->. congruence.
Qed.

Lemma handler_deletes_recorded (st1 : State) (dst : Path) :
  dst ∈ CREATED_FILES st1 →
  fs st1 !! dst = Some File →
  ∃ st2, _handler st1 = (Ok 130, st2) ∧ fs st2 !! dst = None.
Proof.
  intros Hin Hfile.
  destruct (handler_removes_recorded_files st1) as (st2 & Hh & Hfs & _).
  exists st2. split; [done|]. rewrite Hfs. unfold swept.
  rewrite Hfile. by rewrite bool_decide_true by done.
Qed.

Lemma converted_length (src : Path) (format : string) :
  PathLib.name src ≠ "" → length (converted src format) = length src.
Proof.
  intros Hname. unfold converted. rewrite PathFacts.join_nonempty.
  - pose proof (f_equal length (named_path src Hname)) as Hl.
    rewrite length_app in Hl |- *. simpl in *. lia.
  - intros H. apply (f_equal String.length) in H.
    rewrite !StrFacts.length_app in H. simpl in H. lia.
Qed.

(** X13: a preview with [--force] records destinations it has not written.
    When the destination of a convert operation exists already, the
    iteration counts a success and the preview is interrupted afterwards,
    the handler deletes that file. *)
Theorem interrupted_preview_deletes_existing_destination
    (ctx : Ctx) (format : string) (fast : bool) (src : Path)
    (ok fail fail' : nat) (st st1 : State) :
  dry_run ctx = true →
  PathLib.name src ≠ "" →
  fs st !! src = Some File →
  fs st !! converted src format = Some File →
  converted src format ≠ src →
  (video_convert_file subprocess_run ctx format fast true src (ok, fail) st
   = (Ok (S ok, fail'), st1) →
   ∃ st2, _handler st1 = (Ok 130, st2)
          ∧ fs st2 !! converted src format = None)
  ∧ (image_convert_file subprocess_run ctx format true src (ok, fail) st
     = (Ok (S ok, fail'), st1) →
     ∃ st2, _handler st1 = (Ok 130, st2)
            ∧ fs st2 !! converted src format = None).
Proof.
  intros Hdry Hname Hsrc Hdst Hne.
  pose proof (converted_length src format Hname) as Hlen.
  split; intros H.
  - apply video_convert_file_inv in H as [(_ & _ & Hs)|(Hok & _)]; [|lia].
    apply handler_deletes_recorded.
    + rewrite (counted_success_created _ _ _ _ _ _ _ Hs).
      apply elem_of_app. right. by left.
    + by eapply counted_success_keeps.
  - apply image_convert_file_inv in H as [(_ & _ & Hs)|(Hok & _)]; [|lia].
    unfold resolved in Hs. rewrite andb_false_r in Hs.
    apply handler_deletes_recorded.
    + rewrite (counted_success_created _ _ _ _ _ _ _ Hs).
      apply elem_of_app. right. by left.
    + by eapply counted_success_keeps.
Qed.

End InterruptedPreview.

(* ================================================================== *)
(** * The added facts on concrete inputs *)
(* ================================================================== *)

Module Cases.

(** A development layout on a POSIX system. *)
Definition env_dev : Startup.Env :=
  {| Startup.os_name := "posix";
     Startup.MEIPASS := None;
     Startup.module_file := "/opt/avicore/app.py" |}.

(** A picture that was converted before. *)
Definition picture_and_output : FS :=
  {[ [] := Dir; ["a.png"] := File; ["a.webp"] := File ]}.

End Cases.

Lemma encoder_ok_keeps_files (fs : FS) (cmd : list string) (p : Path) :
  fs !! p = Some File → (Scenario.encoder_ok fs cmd).2 !! p = Some File.
Proof.
  intros Hp. unfold Scenario.encoder_ok. simpl.
  destruct (last cmd) as [out|]; [|done].
  destruct (decide (PathLib.of_str out = p)) as [->|Hne].
  - apply lookup_insert_eq.
  - by rewrite lookup_insert_ne.
Qed.

(** One picture in the working directory. *)
Lemma backup_original_moves_source_witness :
  ∃ target st',
    backup_original ["a.png"] (Scenario.start Scenario.one_picture)
    = (Ok target, st')
    ∧ target = ["backup"; "a.png"]
    ∧ fs st' !! target = Some File
    ∧ fs st' !! ["a.png"] = None.
Proof.
  assert (PathLib.name ["a.png"] ≠ "") as Hname
    by (vm_compute; discriminate).
  assert (backup_original ["a.png"] (Scenario.start Scenario.one_picture)
          = (Ok ["backup"; "a.png"],
             (backup_original ["a.png"]
                (Scenario.start Scenario.one_picture)).2)) as Heq
    by (vm_compute; reflexivity).
  destruct (backup_original_moves_source ["a.png"]
              (Scenario.start Scenario.one_picture) _ _ Hname eq_refl Heq)
    as (_ & _ & Htarget & Hgone & _).
  eexists _, _. split; [exact Heq|]. split; [done|]. by split.
Defined.

(** Two clips next to a regular file called [backup]. *)
Lemma failed_backup_keeps_source_witness :
  (PathLib.name ["a.mov"] ≠ ""
   ∧ Scenario.backup_is_a_file !! ["a.mov"] = Some File
   ∧ Scenario.backup_is_a_file !! backup_dir ["a.mov"] = Some File)
  ∧ ∃ e,
      backup_original ["a.mov"] (Scenario.start Scenario.backup_is_a_file)
      = (Raise e, Scenario.start Scenario.backup_is_a_file)
      ∧ exn_cls e = FileExistsError
      ∧ fs (Scenario.start Scenario.backup_is_a_file) !! ["a.mov"]
        = Some File.
Proof.
  assert (PathLib.name ["a.mov"] ≠ "") as Hname
    by (vm_compute; discriminate).
  split; [by repeat split|].
  destruct (failed_backup_keeps_source ["a.mov"]
              (Scenario.start Scenario.backup_is_a_file) Hname eq_refl)
    as [Hkept Hblocked].
  destruct (Hblocked eq_refl) as (e & Hraise & Hcls).
  exists e. split; [exact Hraise|]. split; [exact Hcls|].
  exact (proj1 (Hkept _ _ Hraise)).
Defined.

(** A picture next to [a.webp]: compressing the picture and converting it
    to [webp] both meet an existing destination. *)
Lemma no_existing_destination_without_force_witness :
  0 ≤ 60 ≤ 100
  ∧ (∃ r st',
       image_convert_file Scenario.encoder_ok Scenario.ctx_run "webp" false
         ["a.png"] (0%nat, 0%nat) (Scenario.start Cases.picture_and_output)
       = (r, st')
       ∧ spares_existing
           (image_convert_cmd (ffmpeg Scenario.ctx_run) ["a.png"])
           (Scenario.start Cases.picture_and_output) st')
  ∧ (∃ r st',
       image_compress_file Scenario.encoder_ok Scenario.ctx_run 60 false
         ["a.png"] (0%nat, 0%nat) (Scenario.start Cases.picture_and_output)
       = (r, st')
       ∧ spares_existing
           (image_compress_cmd (ffmpeg Scenario.ctx_run) 60 ["a.png"])
           (Scenario.start Cases.picture_and_output) st').
Proof.
  assert (0 ≤ 60 ≤ 100) as Hquality by lia.
  split; [exact Hquality|].
  destruct (no_existing_destination_without_force Scenario.encoder_ok
              Scenario.ctx_run "webp" false 60 "a.png" ["a.png"] 0%nat 0%nat
              (Scenario.start Cases.picture_and_output) Hquality)
    as (_ & _ & Hconvert & Hcompress & _).
  by split.
Defined.

(** [video mute --force movie.mp4] with an encoder that succeeds. *)
Lemma in_place_output_is_moved_to_backup_witness :
  ∃ st',
    video_mute_file Scenario.encoder_ok Scenario.ctx_run true ["movie.mp4"]
      (0%nat, 0%nat) (Scenario.start Scenario.one_clip)
    = (Ok (1%nat, 0%nat), st')
    ∧ fs st' !! ["movie.mp4"] = None
    ∧ CREATED_FILES st' = [["movie.mp4"]].
Proof.
  assert (PathLib.name ["movie.mp4"] ≠ "") as Hname
    by (vm_compute; discriminate).
  set (res := video_mute_file Scenario.encoder_ok Scenario.ctx_run true
                ["movie.mp4"] (0%nat, 0%nat)
                (Scenario.start Scenario.one_clip)).
  assert (res = (Ok (1%nat, 0%nat), res.2)) as Heq
    by (vm_compute; reflexivity).
  destruct (in_place_output_is_moved_to_backup Scenario.encoder_ok
              Scenario.ctx_run 60 true ["movie.mp4"] 0%nat 0%nat 0%nat
              (Scenario.start Scenario.one_clip) res.2 Hname)
    as [Hmute _].
  { intros cmd. by apply encoder_ok_keeps_files. }
  destruct (Hmute Heq) as (Hgone & _ & Hcreated).
  exists res.2. by repeat split.
Defined.

(** [video convert movie.mp4 mkv] with an encoder that succeeds. *)
Lemma converted_source_is_moved_to_backup_witness :
  ∃ st',
    video_convert_file Scenario.encoder_ok Scenario.ctx_run "mkv" false false
      ["movie.mp4"] (0%nat, 0%nat) (Scenario.start Scenario.one_clip)
    = (Ok (1%nat, 0%nat), st')
    ∧ fs st' !! ["movie.mp4"] = None
    ∧ CREATED_FILES st' = [converted ["movie.mp4"] "mkv"].
Proof.
  assert (PathLib.name ["movie.mp4"] ≠ "") as Hname
    by (vm_compute; discriminate).
  set (res := video_convert_file Scenario.encoder_ok Scenario.ctx_run "mkv"
                false false ["movie.mp4"] (0%nat, 0%nat)
                (Scenario.start Scenario.one_clip)).
  assert (res = (Ok (1%nat, 0%nat), res.2)) as Heq
    by (vm_compute; reflexivity).
  destruct (converted_source_is_moved_to_backup Scenario.encoder_ok
              Scenario.ctx_run "mkv" false false ["movie.mp4"]
              0%nat 0%nat 0%nat
              (Scenario.start Scenario.one_clip) res.2 Hname)
    as [Hvideo _].
  { intros cmd. by apply encoder_ok_keeps_files. }
  destruct (Hvideo Heq) as (Hgone & _ & Hcreated).
  exists res.2. by repeat split.
Defined.

(** A pattern given a second time. *)
Lemma expand_inputs_repeated_patterns_witness :
  expand_inputs Scenario.glob_literal Scenario.three_clips
    (["b.mp4"; "a.mp4"] ++ ["b.mp4"])
  = expand_inputs Scenario.glob_literal Scenario.three_clips
      ["b.mp4"; "a.mp4"].
Proof.
  apply (expand_inputs_repeated_patterns Scenario.glob_literal
           Scenario.three_clips ["b.mp4"; "a.mp4"] ["b.mp4"]).
  intros item ->%list_elem_of_singleton. by left.
Defined.

(** A preview with an encoder that would succeed and one that would
    fail. *)
Lemma preview_never_starts_the_encoder_witness :
  image_convert Scenario.encoder_ok Scenario.glob_literal
    Scenario.ctx_preview ["a.png"] "webp" false
    (Scenario.start Scenario.one_picture)
  = image_convert Scenario.encoder_fails Scenario.glob_literal
      Scenario.ctx_preview ["a.png"] "webp" false
      (Scenario.start Scenario.one_picture).
Proof.
  destruct (preview_never_starts_the_encoder Scenario.encoder_ok
              Scenario.encoder_fails Scenario.glob_literal
              Scenario.ctx_preview ["a.png"] "a.png" "webp" false false 60
              (Scenario.start Scenario.one_picture) eq_refl)
    as (_ & _ & Himage & _).
  exact Himage.
Defined.

(** [avicore version] in a directory without the encoder. *)
Lemma no_command_without_working_encoder_witness :
  OS.exists_ Scenario.one_picture (Startup.resolve_ffmpeg Cases.env_dev)
  = false
  ∧ ∃ e st',
      Startup.invoke Scenario.encoder_ok id Cases.env_dev false false
        (λ _, Startup.version) (Scenario.start Scenario.one_picture)
      = (Raise e, st')
      ∧ exn_cls e = ClickException
      ∧ terminal st' = [].
Proof.
  split; [by vm_compute|].
  destruct (no_command_without_working_encoder Scenario.encoder_ok id
              Cases.env_dev false false (λ _, Startup.version)
              (Scenario.start Scenario.one_picture))
    as (e & st' & Hinv & Hcls & _ & Hterm & _).
  { left. by vm_compute. }
  exists e, st'. by repeat split.
Defined.

(** [--dry-run image convert a.png webp --force] next to an older
    [a.webp], then an interrupt. *)
Lemma interrupted_preview_deletes_existing_destination_witness :
  ∃ st1 st2,
    image_convert_file Scenario.encoder_ok Scenario.ctx_preview "webp" true
      ["a.png"] (0%nat, 0%nat) (Scenario.start Cases.picture_and_output)
    = (Ok (1%nat, 0%nat), st1)
    ∧ Startup._handler st1 = (Ok 130, st2)
    ∧ fs st2 !! ["a.webp"] = None.
Proof.
  assert (PathLib.name ["a.png"] ≠ "") as Hname
    by (vm_compute; discriminate).
  assert (converted ["a.png"] "webp" ≠ ["a.png"]) as Hne
    by (vm_compute; discriminate).
  set (res := image_convert_file Scenario.encoder_ok Scenario.ctx_preview
                "webp" true ["a.png"] (0%nat, 0%nat)
                (Scenario.start Cases.picture_and_output)).
  assert (res = (Ok (1%nat, 0%nat), res.2)) as Heq
    by (vm_compute; reflexivity).
  destruct (interrupted_preview_deletes_existing_destination
              Scenario.encoder_ok Scenario.ctx_preview "webp" false
              ["a.png"] 0%nat 0%nat 0%nat
              (Scenario.start Cases.picture_and_output) res.2
              eq_refl Hname eq_refl eq_refl Hne)
    as [_ Himage].
  destruct (Himage Heq) as (st2 & Hhandler & Hgone).
  exists res.2, st2. by repeat split.
Defined.
